(** * Attachee tracking (swahilipot.py): model and verified properties

    The development embeds the two classes of [swahilipot.py], [Attachee]
    and [DivisionManager], as state-passing programs over records, with
    Python's numbers (unbounded [int], binary64 [float]) made explicit. *)

From Stdlib Require Import ZArith QArith Qround Qpower Qreduction Qabs Lqa Lia.
From Stdlib Require Import PrimFloat FloatOps SpecFloat Uint63.
From stdpp Require Import base option list strings gmap.

(** ** Python numbers *)

Module Binary64.

Local Open Scope Q_scope.

(** Round to the nearest integer, ties to the even one. *)
Definition rnd_even (x : Q) : Z :=
  let f := Qfloor x in
  match Qcompare (x - inject_Z f) (1 # 2) with
  | Lt => f
  | Gt => (f + 1)%Z
  | Eq => if Z.even f then f else (f + 1)%Z
  end.

(** [floor (log2 x)] for a positive rational. *)
Definition Qlog2 (x : Q) : Z :=
  let l := (Z.log2 (Qnum x) - Z.log2 (Zpos (Qden x)))%Z in
  if Qle_bool (2 ^ l) x then l else (l - 1)%Z.

(** The binary64 number nearest to a rational, ties to even: 53
    significant bits.  The exponent range is not represented: every
    quantity the program computes is a quotient, sum or product of
    counts and ratings and stays far inside it.  The result is a reduced
    fraction, so equal values are equal terms. *)
Definition rn64 (x : Q) : Q :=
  if Qeq_bool x 0 then 0
  else
    let e := (Qlog2 (Qabs x) - 52)%Z in
    Qred (inject_Z (rnd_even (x / 2 ^ e)) * 2 ^ e).

(** Half a unit in the last place of a number in [1, 2): [2^-53]. *)
Definition eps53 : Q := 1 # 9007199254740992.

(** The error allowed per addition, in tenths, in a sum of at most
    [2^20] scores: [2^-25]. *)
Definition delta : Q := 1 # 33554432.

(** The float written with one decimal, [k/10]. *)
Definition dec1 (k : Z) : Q := rn64 (k # 10).

(** [round(x, 1)] on a float: the exact value of [x] is rounded to one
    decimal, ties to even, and the decimal is read back as a float. *)
Definition round1 (x : Q) : Q := dec1 (rnd_even (10 * x)).

End Binary64.


(** The binary64 numbers of the machine, read as rationals.  They are used
    only to compare [Binary64.rn64] with the hardware arithmetic on
    samples. *)
Module Hardware.

Definition to_Q (f : float) : option Q :=
  match Prim2SF f with
  | S754_zero _ => Some 0%Q
  | S754_finite s m e =>
      let v := (inject_Z (Zpos m) * 2 ^ e)%Q in
      Some (Qred (if s then Qopp v else v))
  | _ => None
  end.

Definition of_Z (z : Z) : float := PrimFloat.of_uint63 (Uint63.of_Z z).

Definition div_ints (a b : Z) : option Q :=
  to_Q (PrimFloat.div (of_Z a) (of_Z b)).

Definition percent (a b : Z) : option Q :=
  to_Q (PrimFloat.mul (PrimFloat.div (of_Z a) (of_Z b)) (of_Z 100)).

Definition add_tenths (a b : Z) : option Q :=
  to_Q (PrimFloat.add (PrimFloat.div (of_Z a) (of_Z 10))
                      (PrimFloat.div (of_Z b) (of_Z 10))).

(** The integers [lo, lo + 1, ..., lo + n - 1]. *)
Definition range (lo : Z) (n : nat) : list Z :=
  (fun i => (lo + Z.of_nat i)%Z) <$> seq 0 n.

(** The same fraction, numerator and denominator. *)
Definition same (x : option Q) (y : Q) : bool :=
  match x with
  | Some q => (Qnum q =? Qnum y)%Z && (Qden q =? Qden y)%positive
  | None => false
  end.

End Hardware.

(** A Python number: an [int] or a [float].  The program's scores and rates
    are either the literal [0] or the result of a true division. *)
Inductive pynum : Type :=
| PInt (z : Z)
| PFloat (q : Q).

(** The exceptions the modelled statements can raise. *)
Inductive exn : Type :=
| NameError (name : string)
| KeyError (key : string)
| IndexError
| ZeroDivisionError.

Inductive outcome (A : Type) : Type :=
| Return (a : A)
| Raise (e : exn).
Arguments Return {A} a.
Arguments Raise {A} e.

Module PyNum.

Import Binary64.

(** Exact value of a number. *)
Definition value (x : pynum) : Q :=
  match x with PInt z => inject_Z z | PFloat q => q end.

(** [float(x)], the conversion applied to an [int] operand that meets a
    [float]. *)
Definition to_float (x : pynum) : Q :=
  match x with PInt z => rn64 (inject_Z z) | PFloat q => q end.

(** [x + y] *)
Definition add (x y : pynum) : pynum :=
  match x, y with
  | PInt a, PInt b => PInt (a + b)
  | _, _ => PFloat (rn64 (to_float x + to_float y))
  end.

(** [x * y] *)
Definition mul (x y : pynum) : pynum :=
  match x, y with
  | PInt a, PInt b => PInt (a * b)
  | _, _ => PFloat (rn64 (to_float x * to_float y))
  end.

(** [x / y]: always a float; the quotient of two ints is rounded once. *)
Definition truediv (x y : pynum) : outcome pynum :=
  match x, y with
  | PInt a, PInt b =>
      if (b =? 0)%Z then Raise ZeroDivisionError
      else Return (PFloat (rn64 (inject_Z a / inject_Z b)))
  | _, _ =>
      if Qeq_bool (to_float y) 0 then Raise ZeroDivisionError
      else Return (PFloat (rn64 (to_float x / to_float y)))
  end.

(** [round(x, 1)]: an int is returned as it is. *)
Definition round_1 (x : pynum) : pynum :=
  match x with
  | PInt z => PInt z
  | PFloat q => PFloat (round1 q)
  end.

(** [sum(xs)]: starts from the int [0] and adds from left to right.
    (CPython from 3.12 on compensates the float additions; on sums that
    are exact, as in every example below, the result is the same.) *)
Definition sum (xs : list pynum) : pynum := foldl add (PInt 0) xs.

End PyNum.

(** [len(l)] *)
Definition len {A} (l : list A) : Z := Z.of_nat (length l).

(** ** Data model *)

(** A task: the dict built at lines 24-28. *)
Record Task : Type := {
  description : string;
  completed : bool;
  deadline : option string
}.

(** A feedback entry: the dict built at lines 43-47. *)
Record Feedback : Type := {
  text : string;
  rating : Z;
  date : string
}.

Record Attachee : Type := {
  name : string;
  division : string;
  tasks : list Task;
  feedback : list Feedback;
  score : pynum
}.

(** The dict returned by [get_performance_report]. *)
Record Report : Type := {
  report_name : string;
  report_division : string;
  total_tasks : Z;
  completed_tasks : Z;
  completion_rate : pynum;
  feedback_count : Z;
  average_score : pynum
}.

Record DivisionManager : Type := {
  attachees : gmap string (list Attachee)
}.

(** What the methods read from the module namespace: the name [datetime].
    It is bound by the [import datetime] of line 181, which sits under
    [if __name__ == "__main__"], so it is bound when the file runs as a
    script and unbound when the module is imported.  A binding is
    abstracted to the text that
    [datetime.date.today().strftime("%Y-%m-%d")] gives at the call. *)
Record Globals : Type := {
  datetime : option string
}.

(** One constructor per [print] statement, carrying the interpolated
    values. *)
Inductive Line : Type :=
| TaskAssigned (who task_description : string)
| RatingError
| FeedbackRecorded (who : string)
| TaskComplete (task_description : string)
| InvalidTaskIndex
| InvalidDivisionMustBe (valid : list string)
| AddedAttachee (who where_ : string)
| InvalidDivision
| Rule
| SummaryTitle (division_name : string)
| NoAttachees
| AttacheeLine (who : string)
| TasksLine (done total : Z) (rate : pynum)
| FeedbackLine (count : Z)
| ScoreLine (avg : pynum)
| DivisionAverage (avg : pynum).

(** ** Methods as state-passing programs

    A method body maps the object's state to an outcome (a value or a
    raised exception), the state it leaves and the lines it printed. *)

Definition M (S A : Type) : Type := S -> outcome A * S * list Line.

Definition ret {S A} (a : A) : M S A := fun s => (Return a, s, []).

Definition bind {S A B} (m : M S A) (k : A -> M S B) : M S B :=
  fun s =>
    match m s with
    | (Return a, s1, o1) =>
        match k a s1 with (r, s2, o2) => (r, s2, o1 ++ o2) end
    | (Raise e, s1, o1) => (Raise e, s1, o1)
    end.

Definition get {S} : M S S := fun s => (Return s, s, []).
Definition put {S} (s : S) : M S unit := fun _ => (Return tt, s, []).
Definition print {S} (l : Line) : M S unit := fun s => (Return tt, s, [l]).
Definition prints {S} (ls : list Line) : M S unit := fun s => (Return tt, s, ls).
Definition raise {S A} (e : exn) : M S A := fun s => (Raise e, s, []).
Definition lift {S A} (r : outcome A) : M S A := fun s => (r, s, []).

Declare Scope py_scope.
Delimit Scope py_scope with py.
Notation "x <- m ;; k" := (bind m (fun x => k))
  (at level 100, m at next level, right associativity) : py_scope.
Notation "m ;; k" := (bind m (fun _ => k))
  (at level 100, right associativity) : py_scope.

(** The value a run returned, if it returned. *)
Definition result_value {S A} (r : outcome A * S * list Line) : option A :=
  match r.1.1 with Return a => Some a | Raise _ => None end.

(** Projections of a run. *)
Definition result {S A} (r : outcome A * S * list Line) : outcome A := r.1.1.
Definition state {S A} (r : outcome A * S * list Line) : S := r.1.2.
Definition output {S A} (r : outcome A * S * list Line) : list Line := r.2.

Local Open Scope py_scope.

(** ** class Attachee *)

(** [Attachee.__init__] (lines 11-15) *)
Definition Attachee_init (name0 division0 : string) : Attachee :=
  {| name := name0; division := division0;
     tasks := []; feedback := []; score := PInt 0 |}.

Definition set_tasks (self : Attachee) (ts : list Task) : Attachee :=
  {| name := name self; division := division self;
     tasks := ts; feedback := feedback self; score := score self |}.

Definition set_feedback (self : Attachee) (fs : list Feedback) : Attachee :=
  {| name := name self; division := division self;
     tasks := tasks self; feedback := fs; score := score self |}.

Definition set_score (self : Attachee) (x : pynum) : Attachee :=
  {| name := name self; division := division self;
     tasks := tasks self; feedback := feedback self; score := x |}.

(** [task['completed'] = True] *)
Definition mark_completed (t : Task) : Task :=
  {| description := description t; completed := true;
     deadline := deadline t |}.

(** [Attachee.assign_task] (lines 24-30) *)
Definition assign_task (task_description : string)
    (deadline0 : option string) : M Attachee unit :=
  self <- get ;;
  let task := {| description := task_description; completed := false;
                 deadline := deadline0 |} in
  put (set_tasks self (tasks self ++ [task])) ;;
  print (TaskAssigned (name self) task_description).

(** [sum(fb['rating'] for fb in self.feedback)]: ratings are ints. *)
Definition rating_total (fs : list Feedback) : Z :=
  foldl Z.add 0%Z (rating <$> fs).

(** [Attachee._calculate_score] (lines 54-59) *)
Definition _calculate_score : M Attachee unit :=
  self <- get ;;
  match feedback self with
  | [] => put (set_score self (PInt 0))
  | _ :: _ =>
      let total := rating_total (feedback self) in
      q <- lift (PyNum.truediv (PInt total) (PInt (len (feedback self)))) ;;
      put (set_score self (PyNum.round_1 q))
  end.

(** [Attachee.add_feedback] (lines 39-50) *)
Definition add_feedback (g : Globals) (feedback_text : string)
    (rating0 : Z) : M Attachee unit :=
  if negb ((1 <=? rating0)%Z && (rating0 <=? 10)%Z) then
    print RatingError
  else
    today <- match datetime g with
             | Some d => ret d
             | None => raise (NameError "datetime")
             end ;;
    self <- get ;;
    let fb := {| text := feedback_text; rating := rating0; date := today |} in
    put (set_feedback self (feedback self ++ [fb])) ;;
    _calculate_score ;;
    print (FeedbackRecorded (name self)).

(** [Attachee.complete_task] (lines 67-71) *)
Definition complete_task (task_index : Z) : M Attachee unit :=
  self <- get ;;
  if (0 <=? task_index)%Z && (task_index <? len (tasks self))%Z then
    match tasks self !! Z.to_nat task_index with
    | Some t =>
        put (set_tasks self
               (<[Z.to_nat task_index := mark_completed t]> (tasks self))) ;;
        print (TaskComplete (description t))
    | None => raise IndexError
    end
  else
    print InvalidTaskIndex.

(** [sum(1 for task in self.tasks if task['completed'])] *)
Definition count_completed (ts : list Task) : Z :=
  len (filter (fun t => completed t = true) ts).

(** [Attachee.get_performance_report] (lines 75-86) *)
Definition get_performance_report : M Attachee Report :=
  self <- get ;;
  let completed_tasks0 := count_completed (tasks self) in
  completion_rate0 <-
    match tasks self with
    | [] => ret (PInt 0)
    | _ :: _ =>
        q <- lift (PyNum.truediv (PInt completed_tasks0)
                                 (PInt (len (tasks self)))) ;;
        ret (PyNum.mul q (PInt 100))
    end ;;
  ret {| report_name := name self;
         report_division := division self;
         total_tasks := len (tasks self);
         completed_tasks := completed_tasks0;
         completion_rate := PyNum.round_1 completion_rate0;
         feedback_count := len (feedback self);
         average_score := score self |}.

(** ** class DivisionManager *)

Definition DIVISIONS : list string :=
  ["Engineering"; "Tech Programs"; "Radio Support"; "Hub Support"].

(** [DivisionManager.__init__] (line 101) *)
Definition DivisionManager_init : DivisionManager :=
  {| attachees := foldl (fun m d => <[d := []]> m) ∅ DIVISIONS |}.

(** Run a method body on every element of a list of objects, in order,
    collecting the results; an exception stops the loop and leaves the
    remaining objects untouched. *)
Fixpoint each {S A} (body : M S A) (l : list S) : outcome (list A) * list S * list Line :=
  match l with
  | [] => (Return [], [], [])
  | s :: rest =>
      match body s with
      | (Return a, s1, o1) =>
          match each body rest with
          | (Return bs, rest1, o2) => (Return (a :: bs), s1 :: rest1, o1 ++ o2)
          | (Raise e, rest1, o2) => (Raise e, s1 :: rest1, o1 ++ o2)
          end
      | (Raise e, s1, o1) => (Raise e, s1 :: rest, o1)
      end
  end.

(** Run a program on the list stored at [self.attachees[division]]; the
    subscript raises [KeyError] on a missing key. *)
Definition at_division {A} (division0 : string)
    (m : M (list Attachee) A) : M DivisionManager A :=
  fun self =>
    match attachees self !! division0 with
    | None => (Raise (KeyError division0), self, [])
    | Some l =>
        match m l with
        | (r, l1, o) =>
            (r, {| attachees := <[division0 := l1]> (attachees self) |}, o)
        end
    end.

(** [DivisionManager.add_attachee] (lines 112-119) *)
Definition add_attachee (name0 division0 : string) : M DivisionManager bool :=
  if negb (bool_decide (division0 ∈ DIVISIONS)) then
    print (InvalidDivisionMustBe DIVISIONS) ;;
    ret false
  else
    let new_attachee := Attachee_init name0 division0 in
    at_division division0
      (l <- get ;; put (l ++ [new_attachee])) ;;
    print (AddedAttachee name0 division0) ;;
    ret true.

(** [division not in self.attachees] *)
Definition not_in_attachees (division0 : string) (self : DivisionManager) : bool :=
  negb (bool_decide (is_Some (attachees self !! division0))).

(** [DivisionManager.assign_division_task] (lines 128-133) *)
Definition assign_division_task (division0 task_description : string)
    : M DivisionManager unit :=
  self <- get ;;
  if not_in_attachees division0 self then
    print InvalidDivision
  else
    at_division division0 (each (assign_task task_description None)) ;;
    ret tt.

(** [DivisionManager.get_division_performance] (lines 143-147) *)
Definition get_division_performance (division0 : string)
    : M DivisionManager (list Report) :=
  self <- get ;;
  if not_in_attachees division0 self then
    print InvalidDivision ;;
    ret []
  else
    at_division division0 (each get_performance_report).

(** The four lines printed for one report (lines 170-173). *)
Definition report_lines (r : Report) : list Line :=
  [ AttacheeLine (report_name r);
    TasksLine (completed_tasks r) (total_tasks r) (completion_rate r);
    FeedbackLine (feedback_count r);
    ScoreLine (average_score r) ].

(** [DivisionManager.display_division_summary] (lines 155-176) *)
Definition display_division_summary (division0 : string)
    : M DivisionManager unit :=
  self <- get ;;
  if not_in_attachees division0 self then
    print InvalidDivision
  else
    print Rule ;;
    print (SummaryTitle division0) ;;
    print Rule ;;
    performance_reports <- get_division_performance division0 ;;
    match performance_reports with
    | [] => print NoAttachees
    | _ :: _ =>
        prints (concat (report_lines <$> performance_reports)) ;;
        avg_score <-
          lift (PyNum.truediv
                  (PyNum.sum (average_score <$> performance_reports))
                  (PInt (len performance_reports))) ;;
        print (DivisionAverage (PyNum.round_1 avg_score))
    end.

(** ** Public operations and reachable states *)

(** A call of a public method of an [Attachee]. *)
Inductive AttacheeCall : Type :=
| CallAssignTask (task_description : string) (deadline0 : option string)
| CallAddFeedback (g : Globals) (feedback_text : string) (rating0 : Z)
| CallCompleteTask (task_index : Z)
| CallGetPerformanceReport.

Definition run_attachee (c : AttacheeCall) : M Attachee unit :=
  match c with
  | CallAssignTask d dl => assign_task d dl
  | CallAddFeedback g t r => add_feedback g t r
  | CallCompleteTask i => complete_task i
  | CallGetPerformanceReport => get_performance_report ;; ret tt
  end.

(** [self.attachees[division][i].method(...)], as the example usage of
    lines 198-209 does. *)
Definition on_attachee (division0 : string) (i : nat) (c : AttacheeCall)
    : M DivisionManager unit :=
  at_division division0
    (fun l =>
       match l !! i with
       | None => (Raise IndexError, l, [])
       | Some a =>
           match run_attachee c a with
           | (r, a1, o) => (r, <[i := a1]> l, o)
           end
       end).

(** A call of a public method of the manager, or of one of the attachees
    it stores. *)
Inductive ManagerCall : Type :=
| CallAddAttachee (name0 division0 : string)
| CallAssignDivisionTask (division0 task_description : string)
| CallGetDivisionPerformance (division0 : string)
| CallDisplayDivisionSummary (division0 : string)
| CallOnAttachee (division0 : string) (i : nat) (c : AttacheeCall).

Definition run_manager (c : ManagerCall) : M DivisionManager unit :=
  match c with
  | CallAddAttachee n d => add_attachee n d ;; ret tt
  | CallAssignDivisionTask d t => assign_division_task d t
  | CallGetDivisionPerformance d => get_division_performance d ;; ret tt
  | CallDisplayDivisionSummary d => display_division_summary d
  | CallOnAttachee d i c => on_attachee d i c
  end.

(** States of an attachee reachable from its constructor. *)
Inductive attachee_reachable : Attachee -> Prop :=
| ar_init name0 division0 :
    attachee_reachable (Attachee_init name0 division0)
| ar_call a c :
    attachee_reachable a ->
    attachee_reachable (state (run_attachee c a)).

(** States of a manager reachable from its constructor. *)
Inductive reachable : DivisionManager -> Prop :=
| r_init : reachable DivisionManager_init
| r_call m c : reachable m -> reachable (state (run_manager c m)).

(** Run a sequence of calls from a state. *)
Definition run_calls (cs : list ManagerCall) (m : DivisionManager)
    : DivisionManager :=
  foldl (fun s c => state (run_manager c s)) m cs.

(** The calls that lead to a division of two attachees with the scores
    8.0 (ratings 9 and 7) and 6.0 (rating 6). *)
Definition two_scores : list ManagerCall :=
  let g := {| datetime := Some "2023-11-01" |} in
  [ CallAddAttachee "Alice" "Engineering";
    CallAddAttachee "Bob" "Engineering";
    CallOnAttachee "Engineering" 0 (CallAddFeedback g "Solid" 9);
    CallOnAttachee "Engineering" 0 (CallAddFeedback g "Late" 7);
    CallOnAttachee "Engineering" 1 (CallAddFeedback g "Fair" 6) ].

(** *** Sample states *)

(** A fresh attachee. *)
Definition alice : Attachee := Attachee_init "Alice" "Engineering".

(** [datetime] bound, as when the file runs as a script. *)
Definition script_globals : Globals := {| datetime := Some "2023-11-01" |}.

(** [datetime] unbound, as when the module is imported. *)
Definition import_globals : Globals := {| datetime := None |}.

(** Alice with two tasks. *)
Definition alice_two_tasks : Attachee :=
  state (run_attachee (CallAssignTask "Write tests" None)
    (state (run_attachee (CallAssignTask "Fix bug" None) alice))).

(** Alice with two tasks, the first one completed. *)
Definition alice_half_done : Attachee :=
  state (run_attachee (CallCompleteTask 0) alice_two_tasks).

(** The end-to-end run of the specification: one task, the ratings 9 and
    10, the task completed. *)
Definition alice_end_to_end : Attachee :=
  state (run_attachee (CallCompleteTask 0)
    (state (run_attachee (CallAddFeedback script_globals "Great" 10)
      (state (run_attachee (CallAddFeedback script_globals "Good" 9)
        (state (run_attachee (CallAssignTask "Fix bug" None) alice))))))).

(** The manager after [two_scores]. *)
Definition hub : DivisionManager := run_calls two_scores DivisionManager_init.

(** ** Invariants *)

(** The keys of [attachees] are the four division names. *)
Definition keys_ok (m : DivisionManager) : Prop :=
  forall d, is_Some (attachees m !! d) <-> d ∈ DIVISIONS.

(** Every stored attachee carries the name of the division that holds it. *)
Definition divisions_ok (m : DivisionManager) : Prop :=
  forall d l a,
    attachees m !! d = Some l -> a ∈ l -> division a = d /\ d ∈ DIVISIONS.

(** Every stored rating is between 1 and 10. *)
Definition ratings_ok (a : Attachee) : Prop :=
  Forall (fun fb => (1 <= rating fb <= 10)%Z) (feedback a).

(** The score is the int 0 with no feedback, and otherwise a float
    written with one decimal between 1.0 and 10.0. *)
Definition score_ok (a : Attachee) : Prop :=
  match feedback a with
  | [] => score a = PInt 0
  | _ :: _ => exists k, (10 <= k <= 100)%Z /\ score a = PFloat (Binary64.dec1 k)
  end.

(** The score written in tenths, for a score that is [0] or has one
    decimal between 1.0 and 10.0. *)
Definition tenths (k : Z) (x : pynum) : Prop :=
  (k = 0%Z /\ x = PInt 0) \/
  ((10 <= k <= 100)%Z /\ x = PFloat (Binary64.dec1 k)).

(** The sum of a list of integers (scores in tenths). *)
Definition total (ks : list Z) : Z := foldr Z.add 0%Z ks.

(** [acc] is the running sum after [j] scores whose tenths add up to [A]:
    the int [0] or a non-negative float, and ten times its value is within
    [j * delta] of [A]. *)
Definition near (j A : Z) (acc : pynum) : Prop :=
  (acc = PInt 0 \/ exists q, acc = PFloat q /\ (0 <= q)%Q) /\
  (10 * PyNum.value acc - inject_Z A <= inject_Z j * Binary64.delta)%Q /\
  (inject_Z A - 10 * PyNum.value acc <= inject_Z j * Binary64.delta)%Q.

(** What every stored attachee satisfies in a reachable manager. *)
Definition attachee_ok (d : string) (a : Attachee) : Prop :=
  division a = d /\ ratings_ok a /\ score_ok a.

(** The keys are the four divisions and every attachee stored under a
    division satisfies [P] for it. *)
Definition manager_inv (P : string -> Attachee -> Prop)
    (m : DivisionManager) : Prop :=
  keys_ok m /\
  forall d l, attachees m !! d = Some l -> Forall (P d) l.

Definition manager_ok : DivisionManager -> Prop := manager_inv attachee_ok.

(** An attachee stored under division [d] belongs to [d]. *)
Definition in_division (d : string) (a : Attachee) : Prop := division a = d.

(** The task that [assign_division_task] gives to every attachee. *)
Definition division_task (task_description : string) : Task :=
  {| description := task_description; completed := false; deadline := None |}.

(** ** Sequences of calls *)

(** Run a sequence of public calls on one attachee. *)
Definition run_attachee_calls (cs : list AttacheeCall) (a : Attachee)
    : Attachee :=
  foldl (fun s c => state (run_attachee c s)) a cs.

(** The calls [add_feedback(text, rating)] for a list of entries. *)
Definition feedback_calls (g : Globals) (es : list (string * Z))
    : list AttacheeCall :=
  (fun e => CallAddFeedback g e.1 e.2) <$> es.

(** A task that is still there: same description and deadline, and
    completed if it was. *)
Definition task_kept (t t1 : Task) : Prop :=
  description t1 = description t /\ deadline t1 = deadline t /\
  (completed t = true -> completed t1 = true).

(** The score that [_calculate_score] computes from a feedback list. *)
Definition score_of (fs : list Feedback) : pynum :=
  match fs with
  | [] => PInt 0
  | _ :: _ =>
      PFloat (Binary64.round1
                (Binary64.rn64 (inject_Z (rating_total fs) / inject_Z (len fs))))
  end.

(** Alice after the ratings 9 and 7. *)
Definition alice_rated : Attachee :=
  run_attachee_calls
    (feedback_calls script_globals [("Solid", 9%Z); ("Late", 7%Z)]) alice.

(** The members of every division are still there, in order. *)
Definition members_kept (m m1 : DivisionManager) : Prop :=
  forall d l,
    attachees m !! d = Some l ->
    exists l1,
      attachees m1 !! d = Some l1 /\ (name <$> l) `prefix_of` (name <$> l1).

(** The report of an attachee that was just added. *)
Definition fresh_report (name0 division0 : string) : Report :=
  {| report_name := name0; report_division := division0;
     total_tasks := 0; completed_tasks := 0; completion_rate := PInt 0;
     feedback_count := 0; average_score := PInt 0 |}.

(** What [assign_division_task] does to the report of a member: one more
    task, nothing else. *)
Definition one_more_task (r r1 : Report) : Prop :=
  report_name r1 = report_name r /\
  report_division r1 = report_division r /\
  total_tasks r1 = (total_tasks r + 1)%Z /\
  completed_tasks r1 = completed_tasks r /\
  feedback_count r1 = feedback_count r /\
  average_score r1 = average_score r.

(** ** The example usage (lines 180-213)

    The file run as a script: [import datetime] has run, so the name is
    bound.  [engineering_team] is the list stored under "Engineering",
    and the methods called on its elements act on the stored attachees. *)
Definition main_calls (today : string) : list ManagerCall :=
  let g := {| datetime := Some today |} in
  [ CallAddAttachee "Alice Johnson" "Engineering";
    CallAddAttachee "Bob Smith" "Engineering";
    CallAddAttachee "Carol Williams" "Tech Programs";
    CallAddAttachee "David Brown" "Radio Support";
    CallAddAttachee "Eve Davis" "Hub Support";
    CallAssignDivisionTask "Engineering"
      "Review codebase for optimization opportunities";
    CallAssignDivisionTask "Tech Programs"
      "Prepare workshop materials for next week";
    CallOnAttachee "Engineering" 0
      (CallAssignTask "Fix login page UI bugs" (Some "2023-11-15"));
    CallOnAttachee "Engineering" 1
      (CallAssignTask "Implement new API endpoint" (Some "2023-11-20"));
    CallOnAttachee "Engineering" 0
      (CallAddFeedback g "Excellent problem-solving skills" 9);
    CallOnAttachee "Engineering" 0
      (CallAddFeedback g "Needs to improve documentation" 7);
    CallOnAttachee "Engineering" 1
      (CallAddFeedback g "Great teamwork and communication" 10);
    CallOnAttachee "Engineering" 0 (CallCompleteTask 0);
    CallOnAttachee "Engineering" 1 (CallCompleteTask 1) ]
  ++ (CallDisplayDivisionSummary <$> DIVISIONS).

(** Statements in sequence: the first exception ends the run. *)
Fixpoint run_script (cs : list ManagerCall) : M DivisionManager unit :=
  match cs with
  | [] => ret tt
  | c :: rest => run_manager c ;; run_script rest
  end.

Definition main (today : string) : outcome unit * DivisionManager * list Line :=
  run_script (main_calls today) DivisionManager_init.

(** * Properties *)

(** ** Rounding *)

Section Rounding.

Import Binary64.
Local Open Scope Q_scope.

Lemma rnd_even_near (x : Q) :
  inject_Z (rnd_even x) - x <= 1 # 2 /\ x - inject_Z (rnd_even x) <= 1 # 2.
Proof.
  unfold rnd_even.
  pose proof (Qfloor_le x) as Hlo.
  pose proof (Qlt_floor x) as Hhi.
  rewrite inject_Z_plus in Hhi. change (inject_Z 1) with 1 in Hhi.
  destruct (Qcompare (x - inject_Z (Qfloor x)) (1 # 2)) eqn:Hc.
  - apply Qeq_alt in Hc.
    destruct (Z.even (Qfloor x)); rewrite ?inject_Z_plus;
      change (inject_Z 1) with 1; split; lra.
  - apply Qlt_alt in Hc. split; lra.
  - apply Qgt_alt in Hc. rewrite inject_Z_plus.
    change (inject_Z 1) with 1. split; lra.
Qed.

Lemma pow2_pos (e : Z) : 0 < 2 ^ e.
Proof. apply Qpower_0_lt. reflexivity. Qed.

Lemma Qlog2_le (x : Q) : 0 < x -> 2 ^ Qlog2 x <= x.
Proof.
  intros Hx. unfold Qlog2.
  destruct (Qle_bool _ x) eqn:Hb.
  - by apply Qle_bool_iff.
  - destruct x as [p q]. simpl Qnum. simpl Qden.
    assert (Hp : (0 < p)%Z).
    { unfold Qlt in Hx. simpl in Hx. lia. }
    pose proof (Z.log2_spec p Hp) as [Hp1 _].
    pose proof (Z.log2_spec (Z.pos q) (Pos2Z.is_pos q)) as [_ Hq2].
    pose proof (Z.log2_nonneg p) as Hlp.
    pose proof (Z.log2_nonneg (Z.pos q)) as Hlq.
    replace (Z.log2 p - Z.log2 (Z.pos q) - 1)%Z
      with (Z.log2 p - Z.succ (Z.log2 (Z.pos q)))%Z by lia.
    rewrite Qpower_minus by discriminate.
    rewrite <- (Zpower_Qpower 2 (Z.log2 p)) by lia.
    rewrite <- (Zpower_Qpower 2 (Z.succ (Z.log2 (Z.pos q)))) by lia.
    rewrite (Qmake_Qdiv p q).
    set (A := (2 ^ Z.log2 p)%Z) in *.
    set (B := (2 ^ Z.succ (Z.log2 (Z.pos q)))%Z) in *.
    assert (HA : (0 < A)%Z) by (apply Z.pow_pos_nonneg; lia).
    assert (HB : (0 < B)%Z) by lia.
    apply Qle_shift_div_l; [ by rewrite <- (Zlt_Qlt 0) |].
    unfold Qdiv. rewrite <- Qmult_assoc, (Qmult_comm (/ _)), Qmult_assoc.
    apply Qle_shift_div_r; [ by rewrite <- (Zlt_Qlt 0) |].
    rewrite <- !inject_Z_mult. rewrite <- Zle_Qle. nia.
Qed.

Lemma rn64_value (x : Q) :
  0 < x ->
  rn64 x == inject_Z (rnd_even (x / 2 ^ (Qlog2 x - 52))) * 2 ^ (Qlog2 x - 52).
Proof.
  intros Hx. unfold rn64.
  destruct (Qeq_bool x 0) eqn:Hz.
  - apply Qeq_bool_iff in Hz. lra.
  - rewrite Qred_correct.
    assert (Ha : Qabs x = x).
    { destruct x as [[|p|p] q]; try reflexivity; by inversion Hx. }
    rewrite Ha. reflexivity.
Qed.

(** The binary64 rounding of a positive number has relative error at
    most [2^-53]. *)
Lemma rn64_near (x : Q) :
  0 < x -> rn64 x - x <= x * eps53 /\ x - rn64 x <= x * eps53.
Proof.
  intros Hx. rewrite (rn64_value x Hx).
  set (e := (Qlog2 x - 52)%Z).
  pose proof (pow2_pos e) as HE.
  pose proof (Qlog2_le x Hx) as HL.
  assert (He : 2 ^ e == 2 ^ Qlog2 x * (1 # 4503599627370496)).
  { unfold e. rewrite Qpower_minus by discriminate.
    unfold Qdiv. apply Qmult_comp; reflexivity. }
  pose proof (rnd_even_near (x / 2 ^ e)) as [H1 H2].
  assert (Hy : x / 2 ^ e * 2 ^ e == x).
  { field. lra. }
  set (y := x / 2 ^ e) in *.
  set (r := inject_Z (rnd_even y)) in *.
  set (E := 2 ^ e) in *.
  set (L := 2 ^ Qlog2 x) in *.
  unfold eps53.
  assert (E <= x * (1 # 4503599627370496)) by lra.
  split; nra.
Qed.

Lemma Qlog2_lt (x : Q) : 0 < x -> x < 2 ^ (Qlog2 x + 1).
Proof.
  intros Hx. unfold Qlog2.
  destruct (Qle_bool _ x) eqn:Hb.
  - destruct x as [p q]. simpl Qnum. simpl Qden.
    assert (Hp : (0 < p)%Z).
    { unfold Qlt in Hx. simpl in Hx. lia. }
    pose proof (Z.log2_spec p Hp) as [_ Hp2].
    pose proof (Z.log2_spec (Z.pos q) (Pos2Z.is_pos q)) as [Hq1 _].
    pose proof (Z.log2_nonneg p) as Hlp.
    pose proof (Z.log2_nonneg (Z.pos q)) as Hlq.
    replace (Z.log2 p - Z.log2 (Z.pos q) + 1)%Z
      with (Z.succ (Z.log2 p) - Z.log2 (Z.pos q))%Z by lia.
    rewrite Qpower_minus by discriminate.
    rewrite <- (Zpower_Qpower 2 (Z.succ (Z.log2 p))) by lia.
    rewrite <- (Zpower_Qpower 2 (Z.log2 (Z.pos q))) by lia.
    rewrite (Qmake_Qdiv p q).
    set (A := (2 ^ Z.succ (Z.log2 p))%Z) in *.
    set (B := (2 ^ Z.log2 (Z.pos q))%Z) in *.
    assert (HB : (0 < B)%Z) by (apply Z.pow_pos_nonneg; lia).
    apply Qlt_shift_div_r; [by rewrite <- (Zlt_Qlt 0) |].
    unfold Qdiv. rewrite <- Qmult_assoc, (Qmult_comm (/ _)), Qmult_assoc.
    apply Qlt_shift_div_l; [by rewrite <- (Zlt_Qlt 0) |].
    rewrite <- !inject_Z_mult. rewrite <- Zlt_Qlt. nia.
  - assert (Hlt : x < 2 ^ (Z.log2 (Qnum x) - Z.log2 (Z.pos (Qden x)))).
    { apply Qnot_le_lt. intros Hle. apply Qle_bool_iff in Hle. congruence. }
    replace (Z.log2 (Qnum x) - Z.log2 (Z.pos (Qden x)) - 1 + 1)%Z
      with (Z.log2 (Qnum x) - Z.log2 (Z.pos (Qden x)))%Z by lia.
    exact Hlt.
Qed.

(** The result of [rn64] has a significand of 53 bits: it is [m * 2^e]
    with [2^52 <= m <= 2^53], at half a unit of [2^e] from [x] at most. *)
Lemma rn64_significand (x : Q) :
  0 < x ->
  exists m e,
    rn64 x == inject_Z m * 2 ^ e /\
    (2 ^ 52 <= m <= 2 ^ 53)%Z /\
    inject_Z m * 2 ^ e - x <= 2 ^ e * (1 # 2) /\
    x - inject_Z m * 2 ^ e <= 2 ^ e * (1 # 2).
Proof.
  intros Hx.
  exists (rnd_even (x / 2 ^ (Qlog2 x - 52))), (Qlog2 x - 52)%Z.
  split; [by apply rn64_value |].
  set (e := (Qlog2 x - 52)%Z).
  pose proof (pow2_pos e) as HE.
  pose proof (Qlog2_le x Hx) as HL1.
  pose proof (Qlog2_lt x Hx) as HL2.
  assert (He1 : 2 ^ Qlog2 x == 2 ^ e * 4503599627370496).
  { replace (Qlog2 x) with (e + 52)%Z at 1 by (unfold e; lia).
    rewrite Qpower_plus by discriminate. reflexivity. }
  assert (He2 : 2 ^ (Qlog2 x + 1) == 2 ^ e * 9007199254740992).
  { replace (Qlog2 x + 1)%Z with (e + 53)%Z by (unfold e; lia).
    rewrite Qpower_plus by discriminate. reflexivity. }
  rewrite He1 in HL1. rewrite He2 in HL2.
  assert (Hy : x / 2 ^ e * 2 ^ e == x) by (field; lra).
  destruct (rnd_even_near (x / 2 ^ e)) as [H1 H2].
  set (y := x / 2 ^ e) in *.
  set (m := rnd_even y) in *. set (M := inject_Z m) in *.
  set (E := 2 ^ e) in *.
  assert (Hy1 : 4503599627370496 <= y) by nra.
  assert (Hy2 : y < 9007199254740992) by nra.
  split; [| split; nra].
  assert (Hm1 : 4503599627370495 < M) by lra.
  assert (Hm2 : M < 9007199254740993) by lra.
  assert (4503599627370495 < m)%Z by (rewrite Zlt_Qlt; exact Hm1).
  assert (m < 9007199254740993)%Z by (rewrite Zlt_Qlt; exact Hm2).
  change (2 ^ 52)%Z with 4503599627370496%Z.
  change (2 ^ 53)%Z with 9007199254740992%Z. lia.
Qed.

Lemma rn64_zero (x : Q) : x == 0 -> rn64 x = 0.
Proof.
  intros Hx. unfold rn64.
  apply Qeq_bool_iff in Hx. by rewrite Hx.
Qed.

Lemma rn64_near0 (x : Q) :
  0 <= x -> rn64 x - x <= x * eps53 /\ x - rn64 x <= x * eps53.
Proof.
  intros Hx. destruct (Qlt_le_dec 0 x) as [Hp | Hn].
  - by apply rn64_near.
  - assert (Hz : x == 0) by lra.
    rewrite (rn64_zero x Hz). unfold eps53. split; lra.
Qed.

(** Passing from a bound on rationals to the integer statement
    [2 * |n * k - t| <= n]. *)
Lemma half_unit (n k t : Z) :
  2 * (inject_Z n * inject_Z k - inject_Z t) < inject_Z n + 1 ->
  2 * (inject_Z t - inject_Z n * inject_Z k) < inject_Z n + 1 ->
  (2 * Z.abs (n * k - t) <= n)%Z.
Proof.
  intros H1 H2.
  assert (H1' : (2 * (n * k - t) < n + 1)%Z).
  { rewrite Zlt_Qlt. rewrite inject_Z_mult, inject_Z_plus.
    unfold Zminus. rewrite inject_Z_plus, inject_Z_opp, inject_Z_mult.
    change (inject_Z 2) with 2. change (inject_Z 1) with 1. lra. }
  assert (H2' : (2 * (t - n * k) < n + 1)%Z).
  { rewrite Zlt_Qlt. rewrite inject_Z_mult, inject_Z_plus.
    unfold Zminus. rewrite inject_Z_plus, inject_Z_opp, inject_Z_mult.
    change (inject_Z 2) with 2. change (inject_Z 1) with 1. lra. }
  lia.
Qed.

(** The score computed from [n] ratings of total [t], each between 1
    and 10: one division, one rounding to a decimal.  The decimal lies
    between 1.0 and 10.0. *)
Lemma mean_round1_range (t n : Z) :
  (0 < n)%Z -> (n <= t <= 10 * n)%Z ->
  (10 <= rnd_even (10 * rn64 (inject_Z t / inject_Z n)) <= 100)%Z.
Proof.
  intros Hn Ht.
  assert (HN : 1 <= inject_Z n).
  { change 1 with (inject_Z 1). rewrite <- Zle_Qle. lia. }
  assert (HT1 : inject_Z n <= inject_Z t) by (rewrite <- Zle_Qle; lia).
  assert (HT2 : inject_Z t <= 10 * inject_Z n).
  { change 10 with (inject_Z 10). rewrite <- inject_Z_mult, <- Zle_Qle. lia. }
  set (N := inject_Z n) in *. set (T := inject_Z t) in *.
  assert (Hx : T / N * N == T) by (field; lra).
  set (x := T / N) in *.
  assert (Hx1 : 1 <= x) by nra.
  assert (Hx2 : x <= 10) by nra.
  destruct (rn64_near x) as [Hd1 Hd2]; [lra |].
  destruct (rnd_even_near (10 * rn64 x)) as [Hk1 Hk2].
  set (d := rn64 x) in *. set (k := rnd_even (10 * d)) in *.
  set (K := inject_Z k) in *. unfold eps53 in *.
  assert (H1 : 9 < K) by lra. assert (H2 : K < 101) by lra.
  assert (9 < k)%Z by (rewrite Zlt_Qlt; exact H1).
  assert (k < 101)%Z by (rewrite Zlt_Qlt; exact H2).
  lia.
Qed.

(** It is the mean of the ratings up to half a unit of the decimal. *)
Lemma mean_round1_near (t n : Z) :
  (0 < n <= 2 ^ 40)%Z -> (n <= t <= 10 * n)%Z ->
  (2 * Z.abs (n * rnd_even (10 * rn64 (inject_Z t / inject_Z n)) - 10 * t)
   <= n)%Z.
Proof.
  intros Hn Ht.
  assert (HN : 1 <= inject_Z n).
  { change 1 with (inject_Z 1). rewrite <- Zle_Qle. lia. }
  assert (HN' : inject_Z n <= 1099511627776).
  { change 1099511627776 with (inject_Z (2 ^ 40)). rewrite <- Zle_Qle. lia. }
  assert (HT1 : inject_Z n <= inject_Z t) by (rewrite <- Zle_Qle; lia).
  assert (HT2 : inject_Z t <= 10 * inject_Z n).
  { change 10 with (inject_Z 10). rewrite <- inject_Z_mult, <- Zle_Qle. lia. }
  set (N := inject_Z n) in *. set (T := inject_Z t) in *.
  assert (Hx : T / N * N == T) by (field; lra).
  set (x := T / N) in *.
  assert (Hx1 : 1 <= x) by nra.
  assert (Hx2 : x <= 10) by nra.
  destruct (rn64_near x) as [Hd1 Hd2]; [lra |].
  destruct (rnd_even_near (10 * rn64 x)) as [Hk1 Hk2].
  set (d := rn64 x) in *. set (k := rnd_even (10 * d)) in *.
  set (K := inject_Z k) in *. unfold eps53 in *.
  apply half_unit; rewrite inject_Z_mult; change (inject_Z 10) with 10;
    fold T N K; nra.
Qed.

Lemma rnd_even_comp (x y : Q) : x == y -> rnd_even x = rnd_even y.
Proof.
  intros Hxy. unfold rnd_even.
  rewrite (Qfloor_comp x y Hxy).
  assert (Hc : Qcompare (x - inject_Z (Qfloor y)) (1 # 2)
               = Qcompare (y - inject_Z (Qfloor y)) (1 # 2)).
  { apply Qcompare_comp; [by rewrite Hxy | reflexivity]. }
  by rewrite Hc.
Qed.

Lemma rnd_even_Z (z : Z) : rnd_even (inject_Z z) = z.
Proof.
  unfold rnd_even. rewrite Qfloor_Z.
  assert (Hc : Qcompare (inject_Z z - inject_Z z) (1 # 2) = Lt).
  { apply (proj1 (Qlt_alt _ _)). set (w := inject_Z z). lra. }
  by rewrite Hc.
Qed.

(** An integer below [2^53] is a binary64 number. *)
Lemma rn64_int (z : Z) :
  (0 < z < 2 ^ 53)%Z -> rn64 (inject_Z z) == inject_Z z.
Proof.
  intros Hz.
  assert (Hx : 0 < inject_Z z).
  { change 0 with (inject_Z 0). rewrite <- Zlt_Qlt. lia. }
  rewrite (rn64_value _ Hx).
  assert (HL : (Qlog2 (inject_Z z) <= 52)%Z).
  { assert (Z.log2 z < 53)%Z by (apply Z.log2_lt_pow2; lia).
    unfold Qlog2. simpl Qnum. simpl Qden. change (Z.log2 1) with 0%Z.
    destruct (Qle_bool _ _); lia. }
  set (e := (Qlog2 (inject_Z z) - 52)%Z).
  assert (He : (e = - (- e))%Z) by lia.
  assert (Hm : (0 <= - e)%Z) by lia.
  set (m := (- e)%Z) in *.
  assert (HW : 2 ^ e == / inject_Z (2 ^ m)).
  { rewrite He, Qpower_opp. apply Qinv_comp.
    symmetry. apply (Zpower_Qpower 2 m Hm). }
  assert (HWpos : 0 < inject_Z (2 ^ m)).
  { change 0 with (inject_Z 0). rewrite <- Zlt_Qlt.
    apply Z.pow_pos_nonneg; lia. }
  assert (Hq : inject_Z z / 2 ^ e == inject_Z (z * 2 ^ m)).
  { rewrite HW, inject_Z_mult. field. lra. }
  rewrite (rnd_even_comp _ _ Hq), rnd_even_Z, HW, inject_Z_mult.
  field. lra.
Qed.

(** The completion rate of [c] completed tasks out of [n]: a division,
    a product by [100], a rounding to a decimal. *)
Lemma rate_round1_near (c n : Z) :
  (0 < n <= 2 ^ 40)%Z -> (0 <= c <= n)%Z ->
  let k := rnd_even (10 * rn64 (rn64 (inject_Z c / inject_Z n) * 100)) in
  (0 <= k <= 1000)%Z /\ (2 * Z.abs (n * k - 1000 * c) <= n)%Z.
Proof.
  intros Hn Hc k.
  assert (HN : 1 <= inject_Z n).
  { change 1 with (inject_Z 1). rewrite <- Zle_Qle. lia. }
  assert (HN' : inject_Z n <= 1099511627776).
  { change 1099511627776 with (inject_Z (2 ^ 40)). rewrite <- Zle_Qle. lia. }
  assert (HC1 : 0 <= inject_Z c).
  { change 0 with (inject_Z 0). rewrite <- Zle_Qle. lia. }
  assert (HC2 : inject_Z c <= inject_Z n) by (rewrite <- Zle_Qle; lia).
  set (N := inject_Z n) in *. set (C := inject_Z c) in *.
  assert (Hx : C / N * N == C) by (field; lra).
  set (x := C / N) in *.
  assert (Hx1 : 0 <= x) by nra.
  assert (Hx2 : x <= 1) by nra.
  destruct (rn64_near0 x Hx1) as [Hd1 Hd2].
  set (d := rn64 x) in *. unfold eps53 in Hd1, Hd2.
  assert (Hd0 : 0 <= d * 100) by lra.
  destruct (rn64_near0 (d * 100) Hd0) as [He1 He2].
  set (r := rn64 (d * 100)) in *. unfold eps53 in He1, He2.
  destruct (rnd_even_near (10 * r)) as [Hk1 Hk2].
  fold k in Hk1, Hk2. set (K := inject_Z k) in *.
  split.
  - assert (H1 : -1 < K) by lra. assert (H2 : K < 1001) by lra.
    assert (-1 < k)%Z by (rewrite Zlt_Qlt; exact H1).
    assert (k < 1001)%Z by (rewrite Zlt_Qlt; exact H2).
    lia.
  - apply half_unit.
    + rewrite inject_Z_mult. change (inject_Z 1000) with 1000.
      fold C N K. nra.
    + rewrite inject_Z_mult. change (inject_Z 1000) with 1000.
      fold C N K. nra.
Qed.

Lemma tenths_value (k : Z) (s : pynum) :
  tenths k s ->
  (0 <= k <= 100)%Z /\
  (s = PInt 0 \/ exists q, s = PFloat q /\ 0 <= q) /\
  10 * PyNum.value s - inject_Z k <= 100 * eps53 /\
  inject_Z k - 10 * PyNum.value s <= 100 * eps53.
Proof.
  intros [[-> ->] | [Hk ->]].
  - split; [lia |]. split; [by left |]. unfold eps53.
    change (PyNum.value (PInt 0)) with 0. change (inject_Z 0) with 0.
    split; lra.
  - split; [lia |].
    assert (HK1 : 10 <= inject_Z k).
    { change 10 with (inject_Z 10). rewrite <- Zle_Qle. lia. }
    assert (HK2 : inject_Z k <= 100).
    { change 100 with (inject_Z 100). rewrite <- Zle_Qle. lia. }
    assert (Hq : 10 * (k # 10) == inject_Z k).
    { rewrite (Qmake_Qdiv k 10). field. }
    assert (H0 : 0 <= k # 10) by lra.
    destruct (rn64_near0 (k # 10) H0) as [H1 H2].
    unfold dec1. simpl PyNum.value.
    set (d := rn64 (k # 10)) in *. set (x := k # 10) in *.
    unfold eps53 in *.
    split; [right; exists d; split; [reflexivity | lra] |]. split; lra.
Qed.

Lemma rn64_nonneg (x : Q) : 0 <= x -> 0 <= rn64 x.
Proof.
  intros Hx. destruct (rn64_near0 x Hx) as [_ H]. unfold eps53 in H. lra.
Qed.

(** One addition of the running sum. *)
Lemma add_near (j A k : Z) (acc s : pynum) :
  (0 <= j < 2 ^ 20)%Z -> (0 <= A <= 100 * j)%Z ->
  near j A acc -> tenths k s ->
  near (j + 1) (A + k) (PyNum.add acc s).
Proof.
  intros Hj HA (Hacc & Ha1 & Ha2) Hs.
  destruct (tenths_value k s Hs) as (Hk & Hs0 & Hs1 & Hs2).
  assert (HJ1 : 0 <= inject_Z j).
  { change 0 with (inject_Z 0). rewrite <- Zle_Qle. lia. }
  assert (HJ2 : inject_Z j <= 1048576).
  { change 1048576 with (inject_Z (2 ^ 20)). rewrite <- Zle_Qle. lia. }
  assert (HA1 : 0 <= inject_Z A).
  { change 0 with (inject_Z 0). rewrite <- Zle_Qle. lia. }
  assert (HA2 : inject_Z A <= 100 * inject_Z j).
  { change 100 with (inject_Z 100). rewrite <- inject_Z_mult, <- Zle_Qle. lia. }
  assert (HK1 : 0 <= inject_Z k).
  { change 0 with (inject_Z 0). rewrite <- Zle_Qle. lia. }
  assert (HK2 : inject_Z k <= 100).
  { change 100 with (inject_Z 100). rewrite <- Zle_Qle. lia. }
  unfold near. rewrite !inject_Z_plus. change (inject_Z 1) with 1.
  set (J := inject_Z j) in *. set (AA := inject_Z A) in *.
  set (K := inject_Z k) in *.
  assert (Hfloat : forall v t,
    0 <= v -> 0 <= t ->
    10 * v - AA <= J * delta -> AA - 10 * v <= J * delta ->
    10 * t - K <= 100 * eps53 -> K - 10 * t <= 100 * eps53 ->
    (PFloat (rn64 (v + t)) = PInt 0 \/
     exists q, PFloat (rn64 (v + t)) = PFloat q /\ 0 <= q) /\
    10 * rn64 (v + t) - (AA + K) <= (J + 1) * delta /\
    (AA + K) - 10 * rn64 (v + t) <= (J + 1) * delta).
  { intros v t Hv Ht Hv1 Hv2 Ht1 Ht2.
    assert (Hvt : 0 <= v + t) by lra.
    destruct (rn64_near0 (v + t) Hvt) as [Hr1 Hr2].
    pose proof (rn64_nonneg (v + t) Hvt) as Hr0.
    set (r := rn64 (v + t)) in *.
    unfold delta, eps53 in *.
    split; [right; exists r; split; [reflexivity | lra] |].
    split; lra. }
  destruct Hacc as [-> | (q & -> & Hq)]; destruct Hs0 as [-> | (t & -> & Ht)].
  - change (PyNum.add (PInt 0) (PInt 0)) with (PInt 0).
    change (PyNum.value (PInt 0)) with 0 in *.
    unfold delta, eps53 in *.
    split; [by left |]. split; lra.
  - change (PyNum.add (PInt 0) (PFloat t)) with (PFloat (rn64 (0 + t))).
    change (PyNum.value (PFloat ?x)) with x in *.
    change (PyNum.value (PInt 0)) with 0 in *.
    simpl PyNum.value in *.
    apply Hfloat; assumption || lra.
  - change (PyNum.add (PFloat q) (PInt 0)) with (PFloat (rn64 (q + 0))).
    simpl PyNum.value in *.
    apply Hfloat; assumption || lra.
  - change (PyNum.add (PFloat q) (PFloat t)) with (PFloat (rn64 (q + t))).
    simpl PyNum.value in *.
    apply Hfloat; assumption || lra.
Qed.

Lemma len_cons {A} (x : A) (l : list A) : len (x :: l) = (1 + len l)%Z.
Proof. unfold len. simpl length. lia. Qed.

Lemma len_nonneg {A} (l : list A) : (0 <= len l)%Z.
Proof. unfold len. lia. Qed.

(** The running sum over a whole list. *)
Lemma sum_near (ks : list Z) (l : list pynum) :
  Forall2 tenths ks l ->
  forall j A acc,
    (0 <= j)%Z -> (j + len l <= 2 ^ 20)%Z -> (0 <= A <= 100 * j)%Z ->
    near j A acc ->
    near (j + len l) (A + total ks) (foldl PyNum.add acc l) /\
    (0 <= A + total ks <= 100 * (j + len l))%Z.
Proof.
  induction 1 as [| k s ks l Hks Hl IH]; intros j A acc Hj Hn HA Hacc.
  - change (len []) with 0%Z. simpl. rewrite !Z.add_0_r. split; [done | lia].
  - rewrite len_cons in *. pose proof (len_nonneg l) as Hlen.
    destruct (tenths_value k s Hks) as (Hk & _).
    assert (Hstep : near (j + 1) (A + k) (PyNum.add acc s)).
    { apply add_near; [lia | lia | done | done]. }
    destruct (IH (j + 1)%Z (A + k)%Z (PyNum.add acc s)) as [H1 H2];
      [lia | lia | lia | done |].
    simpl foldl. simpl total.
    replace (j + (1 + len l))%Z with (j + 1 + len l)%Z by lia.
    replace (A + (k + total ks))%Z with (A + k + total ks)%Z by lia.
    split; [done | lia].
Qed.

Lemma average_core (n S : Z) (v x : Q) :
  (0 < n <= 2 ^ 20)%Z -> (0 <= S <= 100 * n)%Z -> 0 <= v ->
  10 * v - inject_Z S <= inject_Z n * delta ->
  inject_Z S - 10 * v <= inject_Z n * delta ->
  x * inject_Z n == v ->
  let k := rnd_even (10 * rn64 x) in
  (0 <= k <= 100)%Z /\ (2 * Z.abs (n * k - S) <= n)%Z.
Proof.
  intros Hn HS Hv Hv1 Hv2 Hx k.
  assert (HN : 1 <= inject_Z n).
  { change 1 with (inject_Z 1). rewrite <- Zle_Qle. lia. }
  assert (HN' : inject_Z n <= 1048576).
  { change 1048576 with (inject_Z (2 ^ 20)). rewrite <- Zle_Qle. lia. }
  assert (HS1 : 0 <= inject_Z S).
  { change 0 with (inject_Z 0). rewrite <- Zle_Qle. lia. }
  assert (HS2 : inject_Z S <= 100 * inject_Z n).
  { change 100 with (inject_Z 100). rewrite <- inject_Z_mult, <- Zle_Qle. lia. }
  set (N := inject_Z n) in *. set (SS := inject_Z S) in *.
  unfold delta in *.
  assert (Hx0 : 0 <= x) by nra.
  assert (Hx1 : x <= 11) by nra.
  destruct (rn64_near0 x Hx0) as [Hd1 Hd2].
  destruct (rnd_even_near (10 * rn64 x)) as [Hk1 Hk2].
  fold k in Hk1, Hk2.
  set (d := rn64 x) in *. set (K := inject_Z k) in *.
  unfold eps53 in *.
  split.
  - assert (H1 : -1 < K) by lra.
    assert (H2 : K < 101).
    { assert (10 * x * N <= 100 * N + N * (1 # 33554432)) by nra.
      assert (x <= 10 + (1 # 33554432)) by nra.
      lra. }
    assert (-1 < k)%Z by (rewrite Zlt_Qlt; exact H1).
    assert (k < 101)%Z by (rewrite Zlt_Qlt; exact H2).
    lia.
  - apply half_unit; fold N K SS.
    + assert (N * (K - 10 * d) <= N * (1 # 2)) by nra.
      assert (N * (d - x) <= N * (x * (1 # 9007199254740992))) by nra.
      nra.
    + assert (N * (10 * d - K) <= N * (1 # 2)) by nra.
      assert (N * (x - d) <= N * (x * (1 # 9007199254740992))) by nra.
      nra.
Qed.

(** The division average of scores with one decimal: equal to the mean
    of the scores up to half a unit of the decimal. *)
Lemma average_near (ks : list Z) (l : list pynum) :
  Forall2 tenths ks l -> (0 < len l <= 2 ^ 20)%Z ->
  exists q,
    PyNum.truediv (PyNum.sum l) (PInt (len l)) = Return (PFloat q) /\
    (0 <= rnd_even (10 * q) <= 100)%Z /\
    (2 * Z.abs (len l * rnd_even (10 * q) - total ks) <= len l)%Z.
Proof.
  intros Hks Hn.
  destruct (sum_near ks l Hks 0%Z 0%Z (PInt 0)) as [(Hr & H1 & H2) HS];
    [lia | lia | lia | |].
  { split; [by left |]. change (PyNum.value (PInt 0)) with 0.
    change (inject_Z 0) with 0. unfold delta. split; lra. }
  rewrite !Z.add_0_l in *. fold (PyNum.sum l) in *.
  assert (HN : 1 <= inject_Z (len l)).
  { change 1 with (inject_Z 1). rewrite <- Zle_Qle. lia. }
  destruct Hr as [Hr | (v & Hr & Hv)]; rewrite Hr in *.
  - exists (rn64 (inject_Z 0 / inject_Z (len l))).
    split.
    + unfold PyNum.truediv.
      destruct (Z.eqb_spec (len l) 0); [lia | reflexivity].
    + change (PyNum.value (PInt 0)) with 0 in *.
      apply (average_core (len l) (total ks) 0); try done.
      all: change (inject_Z 0) with 0; field; lra.
  - simpl PyNum.value in *.
    assert (Hnf : rn64 (inject_Z (len l)) == inject_Z (len l)).
    { apply rn64_int. split; [lia |].
      apply Z.le_lt_trans with (2 ^ 20)%Z; [lia | reflexivity]. }
    exists (rn64 (v / rn64 (inject_Z (len l)))).
    split.
    + unfold PyNum.truediv, PyNum.to_float.
      destruct (Qeq_bool _ 0) eqn:Hz; [| reflexivity].
      apply Qeq_bool_iff in Hz. rewrite Hnf in Hz. lra.
    + apply (average_core (len l) (total ks) v); try done.
      all: rewrite Hnf; field; lra.
Qed.

(** A float with one decimal between 1.0 and 10.0 lies in that range:
    the 91 cases are evaluated. *)
Lemma dec1_range (k : Z) :
  (10 <= k <= 100)%Z -> 1 <= dec1 k /\ dec1 k <= 10.
Proof.
  intros Hk.
  assert (Hall : forallb (fun i => Qle_bool 1 (dec1 (10 + Z.of_nat i)) &&
                                   Qle_bool (dec1 (10 + Z.of_nat i)) 10)
                         (seq 0 91) = true) by (vm_compute; reflexivity).
  rewrite forallb_forall in Hall.
  specialize (Hall (Z.to_nat (k - 10))).
  replace (10 + Z.of_nat (Z.to_nat (k - 10)))%Z with k in Hall by lia.
  assert (Hin : In (Z.to_nat (k - 10)) (seq 0 91)) by (apply in_seq; lia).
  destruct (andb_prop _ _ (Hall Hin)) as [H1 H2].
  split; apply Qle_bool_iff; assumption.
Qed.

(** [rn64] agrees with the division of the machine on every mean of up
    to 40 ratings between 1 and 10. *)
Lemma rn64_is_hardware_division :
  forallb (fun n =>
    forallb (fun t =>
      Hardware.same (Hardware.div_ints t n) (rn64 (inject_Z t / inject_Z n)))
      (Hardware.range n (Z.to_nat (9 * n + 1))))
    (Hardware.range 1 40) = true.
Proof. vm_compute. reflexivity. Qed.

(** It agrees with the division and product of the machine on every
    completion rate of up to 60 tasks. *)
Lemma rn64_is_hardware_percent :
  forallb (fun n =>
    forallb (fun c =>
      Hardware.same (Hardware.percent c n)
        (rn64 (rn64 (inject_Z c / inject_Z n) * 100)))
      (Hardware.range 0 (Z.to_nat (n + 1))))
    (Hardware.range 1 60) = true.
Proof. vm_compute. reflexivity. Qed.

(** It agrees with the addition of the machine on every pair of scores
    with one decimal. *)
Lemma rn64_is_hardware_addition :
  forallb (fun a =>
    forallb (fun b =>
      Hardware.same (Hardware.add_tenths a b) (rn64 (dec1 a + dec1 b)))
      (Hardware.range 10 91))
    (Hardware.range 10 91) = true.
Proof. vm_compute. reflexivity. Qed.

(** What [round(x, 1)] does around a decimal tie depends on the float
    nearest to the quotient: 21/20 and 27/20 go up to 1.1 and 1.4, 29/20
    goes down to 1.4, and 5/4, which is a float, goes to the even 1.2. *)
Example round1_around_ties :
  round1 (rn64 (21 # 20)) = dec1 11 /\
  round1 (rn64 (27 # 20)) = dec1 14 /\
  round1 (rn64 (29 # 20)) = dec1 14 /\
  round1 (rn64 (5 # 4)) = dec1 12.
Proof. vm_compute. repeat split; reflexivity. Qed.

Lemma rn64_100 : rn64 (inject_Z 100) = 100.
Proof. vm_compute. reflexivity. Qed.

End Rounding.

(** ** Attachee *)

Section AttacheeProperties.

Import Binary64.

Lemma foldl_add_from (acc : Z) (xs : list Z) :
  foldl Z.add acc xs = (acc + foldl Z.add 0 xs)%Z.
Proof.
  revert acc. induction xs as [| x xs IH]; intros acc; cbn [foldl].
  - lia.
  - rewrite (IH (acc + x)%Z), (IH (0 + x)%Z). lia.
Qed.

Lemma rating_total_app (fs : list Feedback) (fb : Feedback) :
  rating_total (fs ++ [fb]) = (rating_total fs + rating fb)%Z.
Proof.
  unfold rating_total. rewrite fmap_app, foldl_app. reflexivity.
Qed.

Lemma rating_total_cons (fb : Feedback) (fs : list Feedback) :
  rating_total (fb :: fs) = (rating fb + rating_total fs)%Z.
Proof.
  unfold rating_total. rewrite fmap_cons. cbn [foldl].
  rewrite foldl_add_from. lia.
Qed.

(** With every rating between 1 and 10, the total lies between the
    count and ten times the count. *)
Lemma rating_total_bounds (fs : list Feedback) :
  Forall (fun fb => (1 <= rating fb <= 10)%Z) fs ->
  (len fs <= rating_total fs <= 10 * len fs)%Z.
Proof.
  induction 1 as [| fb fs Hfb _ IH].
  - unfold len, rating_total. simpl. lia.
  - rewrite rating_total_cons, len_cons. lia.
Qed.

Lemma len_app {A} (l1 l2 : list A) : len (l1 ++ l2) = (len l1 + len l2)%Z.
Proof. unfold len. rewrite length_app. lia. Qed.

(** [_calculate_score] on a non-empty feedback list. *)
Lemma calculate_score_run (a : Attachee) :
  feedback a <> [] ->
  _calculate_score a =
    (Return tt,
     set_score a
       (PFloat (round1 (rn64 (inject_Z (rating_total (feedback a))
                              / inject_Z (len (feedback a)))))),
     []).
Proof.
  intros Hne. unfold _calculate_score, bind, get.
  destruct (feedback a) as [| f fs] eqn:Hf; [done |].
  unfold lift, PyNum.truediv.
  destruct (Z.eqb_spec (len (f :: fs)) 0) as [H0 | _].
  - rewrite len_cons in H0. pose proof (len_nonneg fs). lia.
  - reflexivity.
Qed.

(** [_calculate_score] on an empty feedback list. *)
Lemma calculate_score_empty (a : Attachee) :
  feedback a = [] -> _calculate_score a = (Return tt, set_score a (PInt 0), []).
Proof.
  intros He. unfold _calculate_score, bind, get. rewrite He. reflexivity.
Qed.

(** A rating outside 1..10: one line printed, nothing else. *)
Lemma add_feedback_invalid_run g txt (r : Z) (a : Attachee) :
  (r < 1 \/ 10 < r)%Z ->
  add_feedback g txt r a = (Return tt, a, [RatingError]).
Proof.
  intros Hr. unfold add_feedback.
  destruct (Z.leb_spec 1 r), (Z.leb_spec r 10); simpl; try lia; reflexivity.
Qed.

(** A rating in 1..10 while the name [datetime] is unbound. *)
Lemma add_feedback_unbound_run g txt (r : Z) (a : Attachee) :
  (1 <= r <= 10)%Z -> datetime g = None ->
  add_feedback g txt r a = (Raise (NameError "datetime"), a, []).
Proof.
  intros Hr Hg. unfold add_feedback.
  destruct (Z.leb_spec 1 r), (Z.leb_spec r 10); simpl; try lia.
  unfold bind. rewrite Hg. reflexivity.
Qed.

(** A rating in 1..10 while the name [datetime] is bound. *)
Lemma add_feedback_valid_run g today txt (r : Z) (a : Attachee) :
  (1 <= r <= 10)%Z -> datetime g = Some today ->
  let fs := feedback a ++ [{| text := txt; rating := r; date := today |}] in
  add_feedback g txt r a =
    (Return tt,
     set_score (set_feedback a fs)
       (PFloat (round1 (rn64 (inject_Z (rating_total fs)
                              / inject_Z (len fs))))),
     [FeedbackRecorded (name a)]).
Proof.
  intros Hr Hg fs. unfold add_feedback.
  destruct (Z.leb_spec 1 r), (Z.leb_spec r 10); simpl negb; cbv iota; try lia.
  unfold bind, ret, get, put, print. rewrite Hg.
  change (negb (true && true)) with false. cbv beta iota.
  rewrite calculate_score_run.
  - reflexivity.
  - simpl. by destruct (feedback a).
Qed.

(** What a valid rating leaves behind when [datetime] is bound: one
    more record, and a score with one decimal that is the mean of the
    ratings up to half a unit of that decimal. *)
Lemma add_feedback_bound_datetime g today txt (r : Z) (a : Attachee) :
  (1 <= r <= 10)%Z -> datetime g = Some today ->
  ratings_ok a -> (len (feedback a) < 2 ^ 40)%Z ->
  let run := add_feedback g txt r a in
  let a1 := state run in
  result run = Return tt /\
  feedback a1 =
    feedback a ++ [{| text := txt; rating := r; date := today |}] /\
  len (feedback a1) = (len (feedback a) + 1)%Z /\
  tasks a1 = tasks a /\ name a1 = name a /\ division a1 = division a /\
  exists k,
    (10 <= k <= 100)%Z /\
    score a1 = PFloat (dec1 k) /\
    (2 * Z.abs (len (feedback a1) * k - 10 * rating_total (feedback a1))
     <= len (feedback a1))%Z.
Proof.
  intros Hr Hg Hok Hlen run a1. subst a1 run.
  rewrite (add_feedback_valid_run g today txt r a Hr Hg).
  set (fb := {| text := txt; rating := r; date := today |}).
  unfold result, state. cbn [fst snd]. cbn [feedback set_score set_feedback
    tasks name division score].
  assert (Hok1 : Forall (fun fb => (1 <= rating fb <= 10)%Z) (feedback a ++ [fb])).
  { apply Forall_app. split; [exact Hok |].
    constructor; [simpl; lia | constructor]. }
  pose proof (rating_total_bounds _ Hok1) as Hb.
  pose proof (len_nonneg (feedback a)) as H0.
  assert (Hl : len (feedback a ++ [fb]) = (len (feedback a) + 1)%Z).
  { rewrite len_app. reflexivity. }
  repeat split; try done.
  eexists. split; [| split; [reflexivity |]].
  - apply mean_round1_range; lia.
  - apply mean_round1_near; lia.
Qed.

(** [assign_task] appends one task that is not completed. *)
Lemma assign_task_run d dl (a : Attachee) :
  assign_task d dl a =
    (Return tt,
     set_tasks a (tasks a ++ [{| description := d; completed := false;
                                 deadline := dl |}]),
     [TaskAssigned (name a) d]).
Proof. reflexivity. Qed.

Lemma complete_task_valid_run (i : Z) (a : Attachee) :
  (0 <= i < len (tasks a))%Z ->
  exists t,
    tasks a !! Z.to_nat i = Some t /\
    complete_task i a =
      (Return tt,
       set_tasks a (<[Z.to_nat i := mark_completed t]> (tasks a)),
       [TaskComplete (description t)]).
Proof.
  intros Hi. unfold complete_task, bind, get.
  destruct (Z.leb_spec 0 i); [| lia].
  destruct (Z.ltb_spec i (len (tasks a))); [| lia].
  destruct (lookup_lt_is_Some_2 (tasks a) (Z.to_nat i)) as [t Ht].
  { unfold len in *. lia. }
  exists t. split; [exact Ht |].
  cbn [andb]. rewrite Ht. reflexivity.
Qed.

Lemma complete_task_invalid_run (i : Z) (a : Attachee) :
  (i < 0 \/ len (tasks a) <= i)%Z ->
  complete_task i a = (Return tt, a, [InvalidTaskIndex]).
Proof.
  intros Hi. unfold complete_task, bind, get.
  destruct (Z.leb_spec 0 i), (Z.ltb_spec i (len (tasks a)));
    try lia; reflexivity.
Qed.

(** The report of an attachee without tasks. *)
Lemma get_performance_report_empty_run (a : Attachee) :
  tasks a = [] ->
  get_performance_report a =
    (Return {| report_name := name a;
               report_division := division a;
               total_tasks := 0;
               completed_tasks := 0;
               completion_rate := PInt 0;
               feedback_count := len (feedback a);
               average_score := score a |},
     a, []).
Proof.
  intros Ht. unfold get_performance_report, bind, get. rewrite Ht.
  reflexivity.
Qed.

(** The report of an attachee with tasks. *)
Lemma get_performance_report_run (a : Attachee) :
  tasks a <> [] ->
  get_performance_report a =
    (Return {| report_name := name a;
               report_division := division a;
               total_tasks := len (tasks a);
               completed_tasks := count_completed (tasks a);
               completion_rate :=
                 PFloat (round1
                   (rn64 (rn64 (inject_Z (count_completed (tasks a))
                                / inject_Z (len (tasks a))) * 100)));
               feedback_count := len (feedback a);
               average_score := score a |},
     a, []).
Proof.
  intros Hne. unfold get_performance_report, bind, get.
  destruct (tasks a) as [| t ts] eqn:Ht; [done |].
  unfold lift, PyNum.truediv.
  destruct (Z.eqb_spec (len (t :: ts)) 0) as [H0 | _].
  { rewrite len_cons in H0. pose proof (len_nonneg ts). lia. }
  unfold ret. cbv beta iota.
  unfold PyNum.mul, PyNum.to_float. rewrite rn64_100. reflexivity.
Qed.

Lemma count_completed_bounds (ts : list Task) :
  (0 <= count_completed ts <= len ts)%Z.
Proof.
  unfold count_completed, len.
  pose proof (length_filter (fun t => completed t = true) ts). lia.
Qed.

(** The report never changes the attachee, prints nothing and raises
    nothing. *)
Lemma get_performance_report_pure (a : Attachee) :
  exists rep, get_performance_report a = (Return rep, a, []) /\
              average_score rep = score a /\
              report_name rep = name a /\
              report_division rep = division a.
Proof.
  destruct (tasks a) as [| t ts] eqn:Ht.
  - eexists. rewrite get_performance_report_empty_run by done. done.
  - eexists. rewrite get_performance_report_run by (by rewrite Ht). done.
Qed.

End AttacheeProperties.

(** ** Invariants of an attachee *)

Section AttacheeInvariants.

Import Binary64.

(** The three ways a public call can leave an attachee. *)
Lemma run_attachee_cases (c : AttacheeCall) (a : Attachee) :
  state (run_attachee c a) = a \/
  (exists ts, state (run_attachee c a) = set_tasks a ts) \/
  (exists fb,
     (1 <= rating fb <= 10)%Z /\
     state (run_attachee c a) =
       set_score (set_feedback a (feedback a ++ [fb]))
         (PFloat (round1 (rn64 (inject_Z (rating_total (feedback a ++ [fb]))
                                / inject_Z (len (feedback a ++ [fb]))))))).
Proof.
  destruct c as [d dl | g txt r | i |]; cbn [run_attachee].
  - right; left. rewrite assign_task_run. by eexists.
  - destruct (decide (1 <= r <= 10)%Z) as [Hr | Hr].
    + destruct (datetime g) as [today |] eqn:Hg.
      * right; right.
        rewrite (add_feedback_valid_run g today txt r a Hr Hg).
        by exists {| text := txt; rating := r; date := today |}.
      * left. by rewrite add_feedback_unbound_run.
    + left. rewrite add_feedback_invalid_run by lia. done.
  - destruct (decide (0 <= i < len (tasks a))%Z) as [Hi | Hi].
    + right; left.
      destruct (complete_task_valid_run i a Hi) as (t & _ & ->).
      by eexists.
    + left. rewrite complete_task_invalid_run by lia. done.
  - left. destruct (get_performance_report_pure a) as (rep & Hrep & _).
    unfold bind. rewrite Hrep. done.
Qed.

Lemma run_attachee_division (c : AttacheeCall) (a : Attachee) :
  division (state (run_attachee c a)) = division a.
Proof.
  destruct (run_attachee_cases c a) as [-> | [(ts & ->) | (fb & _ & ->)]];
    reflexivity.
Qed.

Lemma run_attachee_ratings_ok (c : AttacheeCall) (a : Attachee) :
  ratings_ok a -> ratings_ok (state (run_attachee c a)).
Proof.
  intros Hok.
  destruct (run_attachee_cases c a) as [-> | [(ts & ->) | (fb & Hfb & ->)]];
    try done.
  unfold ratings_ok. cbn [feedback set_score set_feedback].
  apply Forall_app. split; [done |]. by constructor.
Qed.

Lemma run_attachee_score_ok (c : AttacheeCall) (a : Attachee) :
  ratings_ok a -> score_ok a -> score_ok (state (run_attachee c a)).
Proof.
  intros Hok Hs.
  destruct (run_attachee_cases c a) as [-> | [(ts & ->) | (fb & Hfb & ->)]];
    try done.
  assert (Hok1 : Forall (fun fb => (1 <= rating fb <= 10)%Z) (feedback a ++ [fb])).
  { apply Forall_app. split; [done |]. by constructor. }
  pose proof (rating_total_bounds _ Hok1) as Hb.
  pose proof (len_nonneg (feedback a)) as H0.
  assert (Hl : len (feedback a ++ [fb]) = (len (feedback a) + 1)%Z).
  { rewrite len_app. reflexivity. }
  unfold score_ok. cbn [feedback set_score set_feedback score].
  destruct (feedback a ++ [fb]) as [| f fs] eqn:Hf.
  { by destruct (feedback a). }
  eexists. split; [| reflexivity].
  apply mean_round1_range; lia.
Qed.

Lemma attachee_init_ok (n d : string) : attachee_ok d (Attachee_init n d).
Proof. split; [done |]. split; [constructor | done]. Qed.

Lemma run_attachee_ok (d : string) (c : AttacheeCall) (a : Attachee) :
  attachee_ok d a -> attachee_ok d (state (run_attachee c a)).
Proof.
  intros (Hd & Hr & Hs). split; [| split].
  - by rewrite run_attachee_division.
  - by apply run_attachee_ratings_ok.
  - by apply run_attachee_score_ok.
Qed.

(** A score that satisfies the invariant has a number of tenths. *)
Lemma score_ok_tenths (a : Attachee) :
  score_ok a -> exists k, tenths k (score a).
Proof.
  unfold score_ok, tenths. destruct (feedback a).
  - intros ->. exists 0%Z. by left.
  - intros (k & Hk & ->). exists k. by right.
Qed.

Lemma score_ok_range (a : Attachee) :
  score_ok a ->
  (0 <= PyNum.value (score a) /\ PyNum.value (score a) <= 10)%Q /\
  (feedback a = [] -> score a = PInt 0) /\
  (feedback a <> [] -> (1 <= PyNum.value (score a))%Q).
Proof.
  unfold score_ok. destruct (feedback a) as [| f fs].
  - intros ->. change (PyNum.value (PInt 0)) with 0%Q.
    split; [split; lra |]. split; done.
  - intros (k & Hk & ->). destruct (dec1_range k Hk) as [H1 H2].
    cbn [PyNum.value]. split; [split; lra |]. split; done.
Qed.

End AttacheeInvariants.

(** ** DivisionManager *)

Section ManagerProperties.

Import Binary64.

Lemma manager_insert_id (m : DivisionManager) d (l : list Attachee) :
  attachees m !! d = Some l ->
  {| attachees := <[d := l]> (attachees m) |} = m.
Proof. intros H. destruct m as [att]. simpl in *. by rewrite insert_id. Qed.

Lemma not_in_attachees_Some (m : DivisionManager) d (l : list Attachee) :
  attachees m !! d = Some l -> not_in_attachees d m = false.
Proof.
  intros H. unfold not_in_attachees.
  rewrite bool_decide_eq_true_2; [done | by rewrite H].
Qed.

Lemma not_in_attachees_None (m : DivisionManager) d :
  attachees m !! d = None -> not_in_attachees d m = true.
Proof.
  intros H. unfold not_in_attachees.
  rewrite bool_decide_eq_false_2; [done |]. rewrite H. by intros [? ?].
Qed.

Lemma keys_ok_Some (m : DivisionManager) d :
  keys_ok m -> d ∈ DIVISIONS -> exists l, attachees m !! d = Some l.
Proof. intros Hk Hd. by apply Hk in Hd. Qed.

Lemma keys_ok_None (m : DivisionManager) d :
  keys_ok m -> d ∉ DIVISIONS -> attachees m !! d = None.
Proof.
  intros Hk Hd. destruct (attachees m !! d) eqn:H; [| done].
  exfalso. apply Hd, Hk. by rewrite H.
Qed.

Lemma at_division_run {A} d (p : M (list Attachee) A)
    (m : DivisionManager) (l : list Attachee) :
  attachees m !! d = Some l ->
  at_division d p m =
    ((p l).1.1, {| attachees := <[d := (p l).1.2]> (attachees m) |}, (p l).2).
Proof.
  intros H. unfold at_division. rewrite H. by destruct (p l) as [[r l1] o].
Qed.

(** The loop of [assign_division_task]. *)
Lemma each_assign_task (td : string) (l : list Attachee) :
  each (assign_task td None) l =
    (Return ((fun _ => tt) <$> l),
     (fun a => set_tasks a (tasks a ++ [division_task td])) <$> l,
     (fun a => TaskAssigned (name a) td) <$> l).
Proof.
  induction l as [| a l IH]; [reflexivity |].
  cbn [each]. rewrite assign_task_run, IH. reflexivity.
Qed.

(** The comprehension of [get_division_performance]. *)
Lemma each_report (l : list Attachee) :
  exists reps,
    each get_performance_report l = (Return reps, l, []) /\
    Forall2 (fun a rep => get_performance_report a = (Return rep, a, [])) l reps /\
    average_score <$> reps = score <$> l.
Proof.
  induction l as [| a l (reps & IH & HF & Hs)].
  - exists []. repeat split; constructor.
  - destruct (get_performance_report_pure a) as (rep & Hrep & Hsc & _).
    exists (rep :: reps). cbn [each]. rewrite Hrep, IH.
    repeat split; [by constructor |].
    rewrite !fmap_cons. by rewrite Hsc, Hs.
Qed.

Lemma add_attachee_invalid_run n d (m : DivisionManager) :
  d ∉ DIVISIONS ->
  add_attachee n d m = (Return false, m, [InvalidDivisionMustBe DIVISIONS]).
Proof.
  intros Hd. unfold add_attachee.
  rewrite bool_decide_eq_false_2 by done. reflexivity.
Qed.

Lemma add_attachee_valid_run n d (m : DivisionManager) (l : list Attachee) :
  d ∈ DIVISIONS -> attachees m !! d = Some l ->
  add_attachee n d m =
    (Return true,
     {| attachees := <[d := l ++ [Attachee_init n d]]> (attachees m) |},
     [AddedAttachee n d]).
Proof.
  intros Hd Hl. unfold add_attachee.
  rewrite bool_decide_eq_true_2 by done. cbn [negb].
  unfold bind at 1. rewrite (at_division_run _ _ _ _ Hl). reflexivity.
Qed.

Lemma assign_division_task_invalid_run d td (m : DivisionManager) :
  attachees m !! d = None ->
  assign_division_task d td m = (Return tt, m, [InvalidDivision]).
Proof.
  intros H. unfold assign_division_task, bind, get.
  rewrite (not_in_attachees_None _ _ H). reflexivity.
Qed.

Lemma assign_division_task_valid_run d td (m : DivisionManager)
    (l : list Attachee) :
  attachees m !! d = Some l ->
  assign_division_task d td m =
    (Return tt,
     {| attachees :=
          <[d := (fun a => set_tasks a (tasks a ++ [division_task td])) <$> l]>
            (attachees m) |},
     (fun a => TaskAssigned (name a) td) <$> l).
Proof.
  intros H. unfold assign_division_task, bind, get.
  rewrite (not_in_attachees_Some _ _ _ H).
  rewrite (at_division_run _ _ _ _ H), each_assign_task.
  cbn [fst snd]. unfold ret. by rewrite app_nil_r.
Qed.

Lemma get_division_performance_invalid_run d (m : DivisionManager) :
  attachees m !! d = None ->
  get_division_performance d m = (Return [], m, [InvalidDivision]).
Proof.
  intros H. unfold get_division_performance, bind, get.
  rewrite (not_in_attachees_None _ _ H). reflexivity.
Qed.

Lemma get_division_performance_valid_run d (m : DivisionManager)
    (l : list Attachee) :
  attachees m !! d = Some l ->
  exists reps,
    get_division_performance d m = (Return reps, m, []) /\
    Forall2 (fun a rep => get_performance_report a = (Return rep, a, [])) l reps /\
    average_score <$> reps = score <$> l.
Proof.
  intros H. destruct (each_report l) as (reps & He & HF & Hs).
  exists reps. split; [| done].
  unfold get_division_performance, bind, get.
  rewrite (not_in_attachees_Some _ _ _ H).
  rewrite (at_division_run _ _ _ _ H), He. cbn [fst snd].
  by rewrite (manager_insert_id _ _ _ H).
Qed.

Lemma display_division_summary_invalid_run d (m : DivisionManager) :
  attachees m !! d = None ->
  display_division_summary d m = (Return tt, m, [InvalidDivision]).
Proof.
  intros H. unfold display_division_summary, bind, get.
  rewrite (not_in_attachees_None _ _ H). reflexivity.
Qed.

Lemma display_division_summary_empty_run d (m : DivisionManager) :
  attachees m !! d = Some [] ->
  display_division_summary d m =
    (Return tt, m, [Rule; SummaryTitle d; Rule; NoAttachees]).
Proof.
  intros H. unfold display_division_summary.
  unfold bind at 1. unfold get at 1.
  rewrite (not_in_attachees_Some _ _ _ H).
  destruct (get_division_performance_valid_run d m [] H)
    as (reps & Hrun & HF & _).
  inversion HF; subst.
  unfold bind, print. rewrite Hrun. reflexivity.
Qed.

(** The summary of a division with attachees, as long as the average
    can be computed. *)
Lemma display_division_summary_run d (m : DivisionManager)
    (l : list Attachee) (q : pynum) :
  attachees m !! d = Some l -> l <> [] ->
  PyNum.truediv (PyNum.sum (score <$> l)) (PInt (len l)) = Return q ->
  exists reps,
    Forall2 (fun a rep => get_performance_report a = (Return rep, a, [])) l reps /\
    display_division_summary d m =
      (Return tt, m,
       [Rule; SummaryTitle d; Rule] ++ concat (report_lines <$> reps)
         ++ [DivisionAverage (PyNum.round_1 q)]).
Proof.
  intros H Hne Hq.
  destruct (get_division_performance_valid_run d m l H)
    as (reps & Hrun & HF & Hs).
  exists reps. split; [done |].
  assert (Hlen : len reps = len l).
  { unfold len. by rewrite <- (Forall2_length _ _ _ HF). }
  unfold display_division_summary.
  unfold bind at 1. unfold get at 1.
  rewrite (not_in_attachees_Some _ _ _ H).
  unfold bind, print, prints, lift. rewrite Hrun.
  destruct reps as [| rep reps]; [by inversion HF; subst |].
  rewrite Hs, Hlen, Hq. cbv beta iota.
  reflexivity.
Qed.

(** The summary never changes the manager. *)
Lemma display_division_summary_state d (m : DivisionManager) :
  state (display_division_summary d m) = m.
Proof.
  destruct (attachees m !! d) as [l |] eqn:H.
  - destruct (get_division_performance_valid_run d m l H)
      as (reps & Hrun & _).
    unfold display_division_summary.
    unfold bind at 1. unfold get at 1.
    rewrite (not_in_attachees_Some _ _ _ H).
    unfold bind, print, prints, lift. rewrite Hrun.
    destruct reps as [| rep reps]; [reflexivity |].
    by destruct (PyNum.truediv _ _).
  - by rewrite display_division_summary_invalid_run.
Qed.

Lemma on_attachee_state d (i : nat) (c : AttacheeCall) (m : DivisionManager) :
  state (on_attachee d i c m) = m \/
  exists l a,
    attachees m !! d = Some l /\ l !! i = Some a /\
    state (on_attachee d i c m) =
      {| attachees := <[d := <[i := state (run_attachee c a)]> l]> (attachees m) |}.
Proof.
  unfold on_attachee.
  destruct (attachees m !! d) as [l |] eqn:H.
  - rewrite (at_division_run _ _ _ _ H).
    destruct (l !! i) as [a |] eqn:Hi.
    + right. exists l, a. split; [done |]. split; [done |].
      by destruct (run_attachee c a) as [[r a1] o].
    + left. unfold state. cbn [fst snd]. by apply manager_insert_id.
  - left. unfold at_division. by rewrite H.
Qed.

End ManagerProperties.

(** ** The invariant of the manager *)

Section ManagerInvariant.

(** A property of stored attachees that holds after the constructor and
    is kept by every call on an attachee. *)
Variable P : string -> Attachee -> Prop.
Hypothesis P_init : forall n d, P d (Attachee_init n d).
Hypothesis P_call :
  forall d c a, P d a -> P d (state (run_attachee c a)).

Lemma manager_init_inv : manager_inv P DivisionManager_init.
Proof.
  split.
  - intros d. unfold DivisionManager_init, DIVISIONS. cbn [attachees foldl].
    rewrite !elem_of_cons, elem_of_nil.
    rewrite !lookup_insert_is_Some', lookup_empty.
    pose proof (@is_Some_None (list Attachee)) as Hnone.
    split.
    + intros [<- | [<- | [<- | [<- | H]]]]; auto 10.
    + intros [-> | [-> | [-> | [-> | []]]]]; auto 10.
  - intros d l. unfold DivisionManager_init, DIVISIONS. cbn [attachees foldl].
    intros H.
    repeat (apply lookup_insert_Some in H as [[_ <-] | [_ H]]; [constructor |]).
    by rewrite lookup_empty in H.
Qed.

(** Replacing the list of an existing division by a list of good
    attachees keeps the invariant. *)
Lemma manager_inv_insert (m : DivisionManager) d (l l1 : list Attachee) :
  manager_inv P m -> attachees m !! d = Some l -> Forall (P d) l1 ->
  manager_inv P {| attachees := <[d := l1]> (attachees m) |}.
Proof.
  intros [Hk Ha] Hl Hl1. split.
  - intros d1. cbn [attachees]. rewrite lookup_insert_is_Some'.
    rewrite <- (Hk d1). split.
    + intros [<- | H]; [by rewrite Hl | done].
    + intros H. by right.
  - intros d1 l2. cbn [attachees]. intros H.
    apply lookup_insert_Some in H as [[<- <-] | [_ H]]; [done |].
    by apply Ha in H.
Qed.

(** Every public call keeps the invariant. *)
Lemma run_manager_inv (c : ManagerCall) (m : DivisionManager) :
  manager_inv P m -> manager_inv P (state (run_manager c m)).
Proof.
  intros Hok. pose proof Hok as [Hk Ha].
  destruct c as [n d | d td | d | d | d i c]; cbn [run_manager].
  - destruct (decide (d ∈ DIVISIONS)) as [Hd | Hd].
    + destruct (keys_ok_Some m d Hk Hd) as [l Hl].
      unfold bind. rewrite (add_attachee_valid_run n d m l Hd Hl).
      unfold state; cbn [fst snd ret].
      apply (manager_inv_insert m d l); [done | done |].
      apply Forall_app. split; [by apply Ha |].
      constructor; [apply P_init | constructor].
    + unfold bind. by rewrite (add_attachee_invalid_run n d m Hd).
  - destruct (attachees m !! d) as [l |] eqn:Hl.
    + rewrite (assign_division_task_valid_run d td m l Hl).
      unfold state; cbn [fst snd].
      apply (manager_inv_insert m d l); [done | done |].
      apply Forall_fmap. eapply Forall_impl; [by apply Ha |].
      intros a Hp. apply (P_call d (CallAssignTask td None)) in Hp.
      exact Hp.
    + by rewrite assign_division_task_invalid_run.
  - destruct (attachees m !! d) as [l |] eqn:Hl.
    + destruct (get_division_performance_valid_run d m l Hl) as (reps & Hrun & _).
      unfold bind. by rewrite Hrun.
    + unfold bind. by rewrite get_division_performance_invalid_run.
  - by rewrite display_division_summary_state.
  - destruct (on_attachee_state d i c m) as [-> | (l & a & Hl & Hi & ->)];
      [done |].
    apply (manager_inv_insert m d l); [done | done |].
    apply Forall_insert; [by apply Ha |].
    apply P_call.
    eapply Forall_lookup_1; [by apply Ha | done].
Qed.

Lemma reachable_inv (m : DivisionManager) : reachable m -> manager_inv P m.
Proof.
  induction 1 as [| m c _ IH]; [apply manager_init_inv | by apply run_manager_inv].
Qed.

End ManagerInvariant.

Section ManagerReachable.

Lemma in_division_inv (m : DivisionManager) :
  manager_inv in_division m <-> divisions_ok m /\ keys_ok m.
Proof.
  split.
  - intros [Hk Ha]. split; [| done].
    intros d l a Hl Hin.
    pose proof (Ha d l Hl) as HF.
    rewrite Forall_forall in HF. split; [by apply HF |].
    apply Hk. by rewrite Hl.
  - intros [Hd Hk]. split; [done |].
    intros d l Hl. apply Forall_forall. intros a Hin.
    by destruct (Hd d l a Hl Hin).
Qed.

Lemma reachable_ok (m : DivisionManager) : reachable m -> manager_ok m.
Proof.
  apply reachable_inv.
  - apply attachee_init_ok.
  - intros d c a. apply run_attachee_ok.
Qed.

Lemma reachable_run_calls (cs : list ManagerCall) (m : DivisionManager) :
  reachable m -> reachable (run_calls cs m).
Proof.
  revert m. induction cs as [| c cs IH]; intros m Hm; [done |].
  apply IH. by constructor.
Qed.

(** The scores of a list of good attachees, in tenths. *)
Lemma scores_tenths d (l : list Attachee) :
  Forall (attachee_ok d) l -> exists ks, Forall2 tenths ks (score <$> l).
Proof.
  induction 1 as [| a l (_ & _ & Hs) _ (ks & IH)].
  - exists []. constructor.
  - destruct (score_ok_tenths a Hs) as [k Hk].
    exists (k :: ks). rewrite fmap_cons. by constructor.
Qed.

End ManagerReachable.

(** * Main results *)

(** ** Attachee.add_feedback *)

(** C1, evaluated where the code departs from it.  [add_feedback] reads the
    global name [datetime] at line 46, and the only [import datetime] of
    the file is at line 181, under [if __name__ == "__main__"].  In a
    program that imports the module the name is unbound: a rating between
    1 and 10 raises [NameError] before line 48, so no record is appended
    and the score is not recomputed.  With the name bound the claim holds:
    [add_feedback_bound_datetime]. *)
Theorem add_feedback_datetime_unbound :
  add_feedback import_globals "Good" 9 alice
  = (Raise (NameError "datetime"), alice, []).
Proof. reflexivity. Qed.

(** The end-to-end run of the specification with [datetime] bound: the
    ratings 9 and 10 give the score 9.5, and completing the only task
    gives the completion rate 100.0. *)
Example end_to_end_score_and_rate :
  score alice_end_to_end = PFloat (19 # 2) /\
  (completion_rate <$> result_value (get_performance_report alice_end_to_end))
    = Some (PFloat 100).
Proof. vm_compute. split; reflexivity. Qed.

(** C2.  A rating below 1 or above 10 leaves the attachee as it was: no
    record is appended, the count and the score are unchanged, the call
    returns normally and prints the error line. *)
Theorem add_feedback_invalid_rating g txt (r : Z) (a : Attachee) :
  (r < 1 \/ 10 < r)%Z ->
  result (add_feedback g txt r a) = Return tt /\
  state (add_feedback g txt r a) = a /\
  feedback (state (add_feedback g txt r a)) = feedback a /\
  len (feedback (state (add_feedback g txt r a))) = len (feedback a) /\
  score (state (add_feedback g txt r a)) = score a /\
  output (add_feedback g txt r a) = [RatingError].
Proof.
  intros Hr. rewrite (add_feedback_invalid_run g txt r a Hr).
  unfold result, state, output. cbn [fst snd]. done.
Qed.

Lemma add_feedback_invalid_rating_witness :
  (11 < 1 \/ 10 < 11)%Z /\
  state (add_feedback import_globals "Too good" 11 alice) = alice.
Proof.
  split; [lia |].
  apply (add_feedback_invalid_rating import_globals "Too good" 11 alice).
  lia.
Defined.

(** ** Attachee.get_performance_report *)

(** C3.  The report is computed without changing the attachee, printing or
    raising, and it carries the attachee's name, division, feedback count
    and score.  Its total is the number [n] of tasks and its completed
    count the number [c] of tasks whose completed flag is true.  Without
    tasks the completion rate is the int 0.  With tasks it is a float with
    one decimal, [k/10], and [k/10] is [100 * c / n] up to half a unit of
    that decimal.  The number of tasks is taken to be at most [2^40]. *)
Theorem get_performance_report_completion_rate (a : Attachee) :
  (Z.of_nat (length (tasks a)) <= 2 ^ 40)%Z ->
  exists rep,
    get_performance_report a = (Return rep, a, []) /\
    report_name rep = name a /\
    report_division rep = division a /\
    total_tasks rep = Z.of_nat (length (tasks a)) /\
    completed_tasks rep
    = Z.of_nat (length (filter (fun t => completed t = true) (tasks a))) /\
    feedback_count rep = Z.of_nat (length (feedback a)) /\
    average_score rep = score a /\
    (tasks a = [] -> completion_rate rep = PInt 0) /\
    (tasks a <> [] ->
     exists k,
       (0 <= k <= 1000)%Z /\
       completion_rate rep = PFloat (Binary64.dec1 k) /\
       (2 * Z.abs
          (Z.of_nat (length (tasks a)) * k
           - 1000 * Z.of_nat
                      (length (filter (fun t => completed t = true) (tasks a))))
        <= Z.of_nat (length (tasks a)))%Z).
Proof.
  intros Hlen.
  destruct (tasks a) as [| t ts] eqn:Ht.
  - eexists. rewrite get_performance_report_empty_run by done.
    split; [reflexivity |].
    cbn [report_name report_division total_tasks completed_tasks
         completion_rate feedback_count average_score].
    repeat split; done.
  - eexists. rewrite get_performance_report_run by (by rewrite Ht).
    rewrite Ht.
    split; [reflexivity |].
    cbn [report_name report_division total_tasks completed_tasks
         completion_rate feedback_count average_score].
    do 6 (split; [reflexivity |]). split; [done |].
    intros _.
    pose proof (count_completed_bounds (t :: ts)) as Hc.
    assert (Hn : (0 < len (t :: ts))%Z).
    { rewrite len_cons. pose proof (len_nonneg ts). lia. }
    destruct (rate_round1_near (count_completed (t :: ts)) (len (t :: ts)))
      as [Hk Hnear]; [by split | exact Hc |].
    eexists. split; [exact Hk |]. split; [reflexivity | exact Hnear].
Qed.

Lemma get_performance_report_completion_rate_witness :
  (Z.of_nat (length (tasks alice_half_done)) <= 2 ^ 40)%Z /\
  exists rep,
    get_performance_report alice_half_done
    = (Return rep, alice_half_done, []) /\
    total_tasks rep = 2%Z /\
    completed_tasks rep = 1%Z /\
    completion_rate rep = PFloat (Binary64.dec1 500).
Proof.
  assert (Hlen : (Z.of_nat (length (tasks alice_half_done)) <= 2 ^ 40)%Z)
    by (vm_compute; discriminate).
  split; [exact Hlen |].
  destruct (get_performance_report_completion_rate alice_half_done Hlen)
    as (rep & Hrep & _ & _ & Htotal & Hdone & _ & _ & _ & Hrate).
  assert (Hn : Z.of_nat (length (tasks alice_half_done)) = 2%Z)
    by (vm_compute; reflexivity).
  assert (Hc : Z.of_nat (length (filter (fun t => completed t = true)
                                   (tasks alice_half_done))) = 1%Z)
    by (vm_compute; reflexivity).
  assert (Hne : tasks alice_half_done <> []) by (vm_compute; discriminate).
  destruct (Hrate Hne) as (k & _ & Hk & Hnear).
  rewrite Hn, Hc in Hnear.
  assert (k = 500%Z) by lia. subst k.
  exists rep. split; [exact Hrep |].
  split; [by rewrite Htotal, Hn |]. split; [by rewrite Hdone, Hc | exact Hk].
Defined.

(** One task of two completed is 50.0. *)
Example half_completed_rate :
  completion_rate <$> result_value (get_performance_report alice_half_done)
  = Some (PFloat 50).
Proof. vm_compute. reflexivity. Qed.

(** ** Attachee.complete_task *)

(** C4.  [complete_task(i)] returns normally in every case and touches
    nothing but the task list.  With [0 <= i < len(tasks)] task [i] keeps
    its description and deadline and is completed, the list keeps its
    length and every other position is unchanged; with any other [i] the
    attachee is unchanged. *)
Theorem complete_task_frame (i : Z) (a : Attachee) :
  result (complete_task i a) = Return tt /\
  name (state (complete_task i a)) = name a /\
  division (state (complete_task i a)) = division a /\
  feedback (state (complete_task i a)) = feedback a /\
  score (state (complete_task i a)) = score a /\
  ((0 <= i < len (tasks a))%Z ->
   exists t,
     tasks a !! Z.to_nat i = Some t /\
     tasks (state (complete_task i a)) !! Z.to_nat i =
       Some {| description := description t; completed := true;
               deadline := deadline t |} /\
     length (tasks (state (complete_task i a))) = length (tasks a) /\
     forall j, j <> Z.to_nat i ->
       tasks (state (complete_task i a)) !! j = tasks a !! j) /\
  ((i < 0 \/ len (tasks a) <= i)%Z -> state (complete_task i a) = a).
Proof.
  destruct (decide (0 <= i < len (tasks a))%Z) as [Hi | Hi].
  - destruct (complete_task_valid_run i a Hi) as (t & Ht & ->).
    unfold result, state. cbn [fst snd name division feedback score tasks set_tasks].
    repeat split; try done; [| lia].
    intros _. exists t. split; [done |].
    assert (Hlt : Z.to_nat i < length (tasks a)) by (unfold len in Hi; lia).
    split; [by rewrite list_lookup_insert_eq |].
    split; [by rewrite length_insert |].
    intros j Hj. by rewrite list_lookup_insert_ne.
  - rewrite complete_task_invalid_run by lia.
    unfold result, state. cbn [fst snd]. repeat split; try done.
Qed.

Lemma complete_task_frame_witness :
  ((0 <= 1 < len (tasks alice_two_tasks))%Z /\
   exists t,
     tasks alice_two_tasks !! Z.to_nat 1 = Some t /\
     tasks (state (complete_task 1 alice_two_tasks)) !! Z.to_nat 1 =
       Some {| description := description t; completed := true;
               deadline := deadline t |}) /\
  ((5 < 0 \/ len (tasks alice_two_tasks) <= 5)%Z /\
   state (complete_task 5 alice_two_tasks) = alice_two_tasks).
Proof.
  split.
  - assert (Hi : (0 <= 1 < len (tasks alice_two_tasks))%Z)
      by (vm_compute; split; congruence).
    split; [exact Hi |].
    destruct (complete_task_frame 1 alice_two_tasks)
      as (_ & _ & _ & _ & _ & Hvalid & _).
    destruct (Hvalid Hi) as (t & Ht & Ht1 & _).
    exists t. split; [exact Ht | exact Ht1].
  - assert (Hi : (5 < 0 \/ len (tasks alice_two_tasks) <= 5)%Z)
      by (right; vm_compute; discriminate).
    split; [exact Hi |].
    destruct (complete_task_frame 5 alice_two_tasks)
      as (_ & _ & _ & _ & _ & _ & Hinvalid).
    exact (Hinvalid Hi).
Defined.

(** ** DivisionManager.add_attachee *)

(** C5.  In a manager whose keys are the four divisions, [add_attachee]
    with another division name returns [False] and leaves the manager as
    it was; with one of the four it returns [True], appends an attachee
    without tasks or feedback and with score 0 to the list of that
    division, and leaves every other list as it was. *)
Theorem add_attachee_spec n d (m : DivisionManager) :
  keys_ok m ->
  (d ∉ DIVISIONS ->
   result (add_attachee n d m) = Return false /\
   state (add_attachee n d m) = m) /\
  (d ∈ DIVISIONS ->
   exists l,
     attachees m !! d = Some l /\
     result (add_attachee n d m) = Return true /\
     attachees (state (add_attachee n d m)) !! d =
       Some (l ++ [{| name := n; division := d; tasks := [];
                      feedback := []; score := PInt 0 |}]) /\
     forall d1, d1 <> d ->
       attachees (state (add_attachee n d m)) !! d1 = attachees m !! d1).
Proof.
  intros Hk. split.
  - intros Hd. by rewrite (add_attachee_invalid_run n d m Hd).
  - intros Hd. destruct (keys_ok_Some m d Hk Hd) as [l Hl].
    exists l. rewrite (add_attachee_valid_run n d m l Hd Hl).
    unfold result, state. cbn [fst snd attachees].
    split; [done |]. split; [done |].
    split; [by rewrite lookup_insert_eq |].
    intros d1 Hd1. by rewrite lookup_insert_ne.
Qed.

Lemma add_attachee_spec_witness :
  keys_ok DivisionManager_init /\
  (("Marketing" ∉ DIVISIONS) /\
   state (add_attachee "Alice" "Marketing" DivisionManager_init)
   = DivisionManager_init) /\
  (("Engineering" ∈ DIVISIONS) /\
   result (add_attachee "Alice" "Engineering" DivisionManager_init)
   = Return true).
Proof.
  assert (Hk : keys_ok DivisionManager_init).
  { apply (manager_init_inv in_division). }
  assert (Hout : "Marketing" ∉ DIVISIONS) by compute_done.
  assert (Hin : "Engineering" ∈ DIVISIONS) by compute_done.
  split; [exact Hk |]. split.
  - split; [exact Hout |].
    apply (add_attachee_spec "Alice" "Marketing" DivisionManager_init Hk).
    exact Hout.
  - split; [exact Hin |].
    destruct (add_attachee_spec "Alice" "Engineering" DivisionManager_init Hk)
      as [_ Hvalid].
    destruct (Hvalid Hin) as (l & _ & Hres & _). exact Hres.
Defined.

(** ** DivisionManager.assign_division_task *)

(** C6.  In a manager whose keys are the four divisions,
    [assign_division_task] returns normally; with another division name
    it changes nothing; with one of the four, every attachee of that
    division, in the order of the list, gets one new task with the given
    description, not completed and without deadline, appended to its
    tasks (one line is printed per attachee, in that order), and the lists
    of the other divisions are unchanged. *)
Theorem assign_division_task_spec d td (m : DivisionManager) :
  keys_ok m ->
  result (assign_division_task d td m) = Return tt /\
  (d ∉ DIVISIONS -> state (assign_division_task d td m) = m) /\
  (d ∈ DIVISIONS ->
   exists l,
     attachees m !! d = Some l /\
     attachees (state (assign_division_task d td m)) !! d =
       Some ((fun a =>
                {| name := name a; division := division a;
                   tasks := tasks a ++ [{| description := td;
                                           completed := false;
                                           deadline := None |}];
                   feedback := feedback a; score := score a |}) <$> l) /\
     output (assign_division_task d td m) =
       (fun a => TaskAssigned (name a) td) <$> l /\
     forall d1, d1 <> d ->
       attachees (state (assign_division_task d td m)) !! d1
       = attachees m !! d1).
Proof.
  intros Hk.
  destruct (decide (d ∈ DIVISIONS)) as [Hd | Hd].
  - destruct (keys_ok_Some m d Hk Hd) as [l Hl].
    rewrite (assign_division_task_valid_run d td m l Hl).
    unfold result, state, output. cbn [fst snd attachees].
    split; [done |]. split; [done |].
    intros _. exists l. split; [done |].
    split; [by rewrite lookup_insert_eq |]. split; [done |].
    intros d1 Hd1. by rewrite lookup_insert_ne.
  - rewrite (assign_division_task_invalid_run d td m (keys_ok_None m d Hk Hd)).
    unfold result, state. cbn [fst snd]. done.
Qed.

Lemma assign_division_task_spec_witness :
  keys_ok DivisionManager_init /\
  (("Marketing" ∉ DIVISIONS) /\
   state (assign_division_task "Marketing" "Review" DivisionManager_init)
   = DivisionManager_init) /\
  (("Engineering" ∈ DIVISIONS) /\
   result (assign_division_task "Engineering" "Review" DivisionManager_init)
   = Return tt).
Proof.
  assert (Hk : keys_ok DivisionManager_init).
  { apply (manager_init_inv in_division). }
  assert (Hout : "Marketing" ∉ DIVISIONS) by compute_done.
  assert (Hin : "Engineering" ∈ DIVISIONS) by compute_done.
  destruct (assign_division_task_spec "Marketing" "Review"
              DivisionManager_init Hk) as (_ & Hinvalid & _).
  destruct (assign_division_task_spec "Engineering" "Review"
              DivisionManager_init Hk) as (Hres & _ & _).
  split; [exact Hk |]. split.
  - split; [exact Hout | exact (Hinvalid Hout)].
  - split; [exact Hin | exact Hres].
Defined.

(** Two attachees of a division get the task, in order; the other
    divisions stay empty. *)
Example assign_division_task_two :
  let m := run_calls [ CallAddAttachee "Carol" "Hub Support" ] hub in
  output (assign_division_task "Engineering" "Review" m)
    = [TaskAssigned "Alice" "Review"; TaskAssigned "Bob" "Review"] /\
  ((fun l : list Attachee => tasks <$> l) <$>
     (attachees (state (assign_division_task "Engineering" "Review" m))
        !! "Engineering"))
    = Some [[division_task "Review"]; [division_task "Review"]] /\
  ((fun l : list Attachee => tasks <$> l) <$>
     (attachees (state (assign_division_task "Engineering" "Review" m))
        !! "Hub Support"))
    = Some [[]].
Proof. vm_compute. repeat split; reflexivity. Qed.

(** ** DivisionManager.get_division_performance *)

(** C7.  In a manager whose keys are the four divisions,
    [get_division_performance] never changes the manager and never
    raises; with another division name it returns the empty list, with
    one of the four the reports of the attachees of that division, one
    per attachee and in the order of the list. *)
Theorem get_division_performance_spec d (m : DivisionManager) :
  keys_ok m ->
  state (get_division_performance d m) = m /\
  (d ∉ DIVISIONS -> result (get_division_performance d m) = Return []) /\
  (d ∈ DIVISIONS ->
   exists l reps,
     attachees m !! d = Some l /\
     result (get_division_performance d m) = Return reps /\
     Forall2 (fun a rep => result (get_performance_report a) = Return rep)
       l reps).
Proof.
  intros Hk.
  destruct (decide (d ∈ DIVISIONS)) as [Hd | Hd].
  - destruct (keys_ok_Some m d Hk Hd) as [l Hl].
    destruct (get_division_performance_valid_run d m l Hl)
      as (reps & Hrun & HF & _).
    rewrite Hrun. unfold result, state. cbn [fst snd].
    split; [done |]. split; [done |].
    intros _. exists l, reps. split; [done |]. split; [done |].
    eapply Forall2_impl; [exact HF |].
    intros a rep Hrep. by rewrite Hrep.
  - rewrite (get_division_performance_invalid_run d m (keys_ok_None m d Hk Hd)).
    unfold result, state. cbn [fst snd]. done.
Qed.

Lemma get_division_performance_spec_witness :
  keys_ok DivisionManager_init /\
  (("Nonexistent" ∉ DIVISIONS) /\
   result (get_division_performance "Nonexistent" DivisionManager_init)
   = Return []) /\
  (("Engineering" ∈ DIVISIONS) /\
   state (get_division_performance "Engineering" DivisionManager_init)
   = DivisionManager_init).
Proof.
  assert (Hk : keys_ok DivisionManager_init).
  { apply (manager_init_inv in_division). }
  assert (Hout : "Nonexistent" ∉ DIVISIONS) by compute_done.
  assert (Hin : "Engineering" ∈ DIVISIONS) by compute_done.
  destruct (get_division_performance_spec "Nonexistent"
              DivisionManager_init Hk) as (_ & Hinvalid & _).
  destruct (get_division_performance_spec "Engineering"
              DivisionManager_init Hk) as (Hstate & _ & _).
  split; [exact Hk |]. split.
  - split; [exact Hout | exact (Hinvalid Hout)].
  - split; [exact Hin | exact Hstate].
Defined.

(** ** DivisionManager.display_division_summary *)

(** C8.  For a reachable manager and a division of at most [2^20]
    attachees, the summary returns normally and changes nothing.  Without
    attachees it prints the header and the no-attachees notice, and no
    average.  With attachees, whose scores in tenths are [ks], it prints
    the header, the four lines of each report in order, and last the
    division average, a float with one decimal [k/10] that is the mean of
    the attachees' scores, [total ks / (10 * n)], up to half a unit of that
    decimal. *)
Theorem display_division_summary_average d (m : DivisionManager)
    (l : list Attachee) :
  reachable m -> attachees m !! d = Some l -> (len l <= 2 ^ 20)%Z ->
  result (display_division_summary d m) = Return tt /\
  state (display_division_summary d m) = m /\
  (l = [] ->
   output (display_division_summary d m)
   = [Rule; SummaryTitle d; Rule; NoAttachees]) /\
  (l <> [] ->
   exists ks reps k,
     Forall2 tenths ks (score <$> l) /\
     Forall2 (fun a rep => get_performance_report a = (Return rep, a, []))
       l reps /\
     output (display_division_summary d m)
     = [Rule; SummaryTitle d; Rule] ++ concat (report_lines <$> reps)
         ++ [DivisionAverage (PFloat (Binary64.dec1 k))] /\
     (0 <= k <= 100)%Z /\
     (2 * Z.abs (len l * k - total ks) <= len l)%Z).
Proof.
  intros Hreach Hl Hlen.
  destruct l as [| a l].
  - rewrite (display_division_summary_empty_run d m Hl).
    unfold result, state, output. cbn [fst snd]. done.
  - pose proof (reachable_ok m Hreach) as [_ Hall].
    destruct (scores_tenths d (a :: l) (Hall d _ Hl)) as [ks Hks].
    assert (Hn : (0 < len (score <$> a :: l) <= 2 ^ 20)%Z).
    { unfold len in *. rewrite length_fmap. simpl length in *. lia. }
    destruct (average_near ks _ Hks Hn) as (q & Hq & Hk & Hnear).
    assert (Hlen1 : len (score <$> a :: l) = len (a :: l)).
    { unfold len. by rewrite length_fmap. }
    rewrite Hlen1 in Hq, Hnear.
    destruct (display_division_summary_run d m (a :: l) (PFloat q) Hl)
      as (reps & HF & Hrun); [done | exact Hq |].
    rewrite Hrun. unfold result, state, output. cbn [fst snd].
    split; [done |]. split; [done |]. split; [done |].
    intros _. exists ks, reps, (Binary64.rnd_even (10 * q)).
    split; [done |]. split; [done |]. split; [reflexivity |]. done.
Qed.

Lemma display_division_summary_average_witness :
  exists l,
    reachable hub /\ attachees hub !! "Engineering" = Some l /\
    (len l <= 2 ^ 20)%Z /\
    state (display_division_summary "Engineering" hub) = hub.
Proof.
  assert (Hreach : reachable hub) by (apply reachable_run_calls; constructor).
  destruct (attachees hub !! "Engineering") as [l |] eqn:Hl;
    [| vm_compute in Hl; discriminate].
  assert (Hlen : (len l <= 2 ^ 20)%Z).
  { vm_compute in Hl. injection Hl as <-. vm_compute. discriminate. }
  exists l. split; [exact Hreach |]. split; [reflexivity |].
  split; [exact Hlen |].
  apply (display_division_summary_average "Engineering" hub l Hreach Hl Hlen).
Defined.

(** Scores 8.0 and 6.0 give the division average 7.0: the mean of the two
    scores, where the mean of the three ratings would be 7.3. *)
Example division_average_of_scores :
  output (display_division_summary "Engineering" hub)
  = [ Rule; SummaryTitle "Engineering"; Rule;
      AttacheeLine "Alice"; TasksLine 0 0 (PInt 0); FeedbackLine 2;
      ScoreLine (PFloat 8);
      AttacheeLine "Bob"; TasksLine 0 0 (PInt 0); FeedbackLine 1;
      ScoreLine (PFloat 6);
      DivisionAverage (PFloat 7) ].
Proof. vm_compute. reflexivity. Qed.

(** ** Invariants *)

(** C9.  After the constructor the keys of [attachees] are the four
    division names and every stored attachee carries the name of the
    division that holds it; every public call, on the manager or on a
    stored attachee, keeps both; so they hold in every reachable state. *)
Theorem division_membership_invariant :
  (divisions_ok DivisionManager_init /\ keys_ok DivisionManager_init) /\
  (forall m c,
     divisions_ok m /\ keys_ok m ->
     divisions_ok (state (run_manager c m)) /\
     keys_ok (state (run_manager c m))) /\
  (forall m, reachable m -> divisions_ok m /\ keys_ok m).
Proof.
  assert (Hinit : forall n d, in_division d (Attachee_init n d)) by done.
  assert (Hcall : forall d c a,
            in_division d a -> in_division d (state (run_attachee c a))).
  { intros d c a Ha. unfold in_division. by rewrite run_attachee_division. }
  split; [| split].
  - apply in_division_inv. by apply manager_init_inv.
  - intros m c Hm. apply in_division_inv.
    apply run_manager_inv; [done | done |]. by apply in_division_inv.
  - intros m Hm. apply in_division_inv. by apply reachable_inv.
Qed.

Lemma division_membership_invariant_witness :
  reachable hub /\ divisions_ok hub /\ keys_ok hub.
Proof.
  assert (Hreach : reachable hub) by (apply reachable_run_calls; constructor).
  split; [exact Hreach |].
  destruct division_membership_invariant as (_ & _ & Hall).
  exact (Hall hub Hreach).
Defined.

(** C10.  After the constructor every stored rating is between 1 and 10
    and the score is the int 0; every public call keeps the ratings
    between 1 and 10 and the score equal to 0 without feedback and to a
    one-decimal float between 1.0 and 10.0 with feedback.  So in every
    reachable state of an attachee, alone or stored in a reachable
    manager, the ratings are in [1, 10], the score is in [0, 10], and it
    is 0 exactly when there is no feedback. *)
Theorem rating_score_invariant :
  (forall n d,
     ratings_ok (Attachee_init n d) /\ score_ok (Attachee_init n d)) /\
  (forall a c,
     ratings_ok a /\ score_ok a ->
     ratings_ok (state (run_attachee c a)) /\
     score_ok (state (run_attachee c a))) /\
  (forall a,
     ratings_ok a /\ score_ok a ->
     (0 <= PyNum.value (score a) /\ PyNum.value (score a) <= 10)%Q /\
     (feedback a = [] <-> (PyNum.value (score a) == 0)%Q)) /\
  (forall a, attachee_reachable a -> ratings_ok a /\ score_ok a) /\
  (forall m d l a,
     reachable m -> attachees m !! d = Some l -> a ∈ l ->
     ratings_ok a /\ score_ok a).
Proof.
  assert (Hstep : forall a c,
            ratings_ok a /\ score_ok a ->
            ratings_ok (state (run_attachee c a)) /\
            score_ok (state (run_attachee c a))).
  { intros a c [Hr Hs]. split.
    - by apply run_attachee_ratings_ok.
    - by apply run_attachee_score_ok. }
  split; [| split; [exact Hstep | split; [| split]]].
  - intros n d. split; [constructor | done].
  - intros a [_ Hs].
    destruct (score_ok_range a Hs) as (Hrange & Hzero & Hpos).
    split; [exact Hrange |]. split.
    + intros He. by rewrite (Hzero He).
    + intros Hv. destruct (feedback a) as [| f fs] eqn:Hf; [done |].
      assert (1 <= PyNum.value (score a))%Q by (by apply Hpos).
      lra.
  - induction 1 as [n d | a c _ IH].
    + split; [constructor | done].
    + by apply Hstep.
  - intros m d l a Hm Hl Hin.
    pose proof (reachable_ok m Hm) as [_ Hall].
    pose proof (Hall d l Hl) as HF. rewrite Forall_forall in HF.
    by destruct (HF a Hin) as (_ & ? & ?).
Qed.

Lemma rating_score_invariant_witness :
  attachee_reachable alice_end_to_end /\
  ratings_ok alice_end_to_end /\ score_ok alice_end_to_end /\
  (0 <= PyNum.value (score alice_end_to_end) /\
   PyNum.value (score alice_end_to_end) <= 10)%Q.
Proof.
  assert (Hreach : attachee_reachable alice_end_to_end) by (repeat constructor).
  destruct rating_score_invariant as (_ & _ & Hrange & Hall & _).
  destruct (Hall alice_end_to_end Hreach) as [Hr Hs].
  split; [exact Hreach |]. split; [exact Hr |]. split; [exact Hs |].
  exact (proj1 (Hrange alice_end_to_end (conj Hr Hs))).
Defined.

(** * Further properties *)

(** ** Rounding, continued *)

Section RoundingExact.

Import Binary64.
Local Open Scope Q_scope.

(** An integer within half a unit of [j], counted in [n]-ths, is [j]. *)
Lemma half_unit_exact (n k j : Z) :
  (0 < n)%Z -> (2 * Z.abs (n * k - n * j) <= n)%Z -> k = j.
Proof. intros Hn H. nia. Qed.

(** The range of the completion rate, whatever the number of tasks. *)
Lemma rate_round1_range (c n : Z) :
  (0 < n)%Z -> (0 <= c <= n)%Z ->
  (0 <= rnd_even (10 * rn64 (rn64 (inject_Z c / inject_Z n) * 100)) <= 1000)%Z.
Proof.
  intros Hn Hc.
  assert (HN : 1 <= inject_Z n).
  { change 1 with (inject_Z 1). rewrite <- Zle_Qle. lia. }
  assert (HC1 : 0 <= inject_Z c).
  { change 0 with (inject_Z 0). rewrite <- Zle_Qle. lia. }
  assert (HC2 : inject_Z c <= inject_Z n) by (rewrite <- Zle_Qle; lia).
  set (N := inject_Z n) in *. set (C := inject_Z c) in *.
  assert (Hx : C / N * N == C) by (field; lra).
  set (x := C / N) in *.
  assert (Hx1 : 0 <= x) by nra.
  assert (Hx2 : x <= 1) by nra.
  destruct (rn64_near0 x Hx1) as [Hd1 Hd2].
  set (d := rn64 x) in *. unfold eps53 in Hd1, Hd2.
  assert (Hd0 : 0 <= d * 100) by lra.
  destruct (rn64_near0 (d * 100) Hd0) as [He1 He2].
  set (r := rn64 (d * 100)) in *. unfold eps53 in He1, He2.
  destruct (rnd_even_near (10 * r)) as [Hk1 Hk2].
  set (k := rnd_even (10 * r)) in *. set (K := inject_Z k) in *.
  assert (H1 : -1 < K) by lra. assert (H2 : K < 1001) by lra.
  assert (-1 < k)%Z by (rewrite Zlt_Qlt; exact H1).
  assert (k < 1001)%Z by (rewrite Zlt_Qlt; exact H2).
  lia.
Qed.

(** A float with one decimal between 0.0 and 100.0 lies in that range:
    the 1001 cases are evaluated. *)
Lemma dec1_percent_range (k : Z) :
  (0 <= k <= 1000)%Z -> 0 <= dec1 k /\ dec1 k <= 100.
Proof.
  intros Hk.
  assert (Hall : forallb (fun i => Qle_bool 0 (dec1 (Z.of_nat i)) &&
                                   Qle_bool (dec1 (Z.of_nat i)) 100)
                         (seq 0 1001) = true) by (vm_compute; reflexivity).
  rewrite forallb_forall in Hall.
  assert (Hin : In (Z.to_nat k) (seq 0 1001)) by (apply in_seq; lia).
  specialize (Hall _ Hin). rewrite Z2Nat.id in Hall by lia.
  destruct (andb_prop _ _ Hall) as [H1 H2].
  split; apply Qle_bool_iff; assumption.
Qed.

(** The score of ratings that all lie between [lo] and [hi] has its
    tenths between [10 * lo] and [10 * hi], whatever their number. *)
Lemma mean_round1_between (t n lo hi : Z) :
  (0 < n)%Z -> (1 <= lo)%Z -> (hi <= 10)%Z ->
  (lo * n <= t <= hi * n)%Z ->
  (10 * lo <= rnd_even (10 * rn64 (inject_Z t / inject_Z n)) <= 10 * hi)%Z.
Proof.
  intros Hn Hlo Hhi Ht.
  assert (HN : 1 <= inject_Z n).
  { change 1 with (inject_Z 1). rewrite <- Zle_Qle. lia. }
  assert (HL : 1 <= inject_Z lo).
  { change 1 with (inject_Z 1). rewrite <- Zle_Qle. lia. }
  assert (HH : inject_Z hi <= 10).
  { change 10 with (inject_Z 10). rewrite <- Zle_Qle. lia. }
  assert (HT1 : inject_Z lo * inject_Z n <= inject_Z t).
  { rewrite <- inject_Z_mult, <- Zle_Qle. lia. }
  assert (HT2 : inject_Z t <= inject_Z hi * inject_Z n).
  { rewrite <- inject_Z_mult, <- Zle_Qle. lia. }
  set (N := inject_Z n) in *. set (T := inject_Z t) in *.
  set (LO := inject_Z lo) in *. set (HI := inject_Z hi) in *.
  assert (Hx : T / N * N == T) by (field; lra).
  set (x := T / N) in *.
  assert (Hx1 : LO <= x) by nra.
  assert (Hx2 : x <= HI) by nra.
  destruct (rn64_near x) as [Hd1 Hd2]; [lra |].
  destruct (rnd_even_near (10 * rn64 x)) as [Hk1 Hk2].
  set (d := rn64 x) in *. set (k := rnd_even (10 * d)) in *.
  set (K := inject_Z k) in *. unfold eps53 in *.
  assert (H1 : 10 * LO - 1 < K) by lra.
  assert (H2 : K < 10 * HI + 1) by lra.
  assert (10 * lo - 1 < k)%Z.
  { rewrite Zlt_Qlt. unfold Zminus.
    rewrite inject_Z_plus, inject_Z_mult. exact H1. }
  assert (k < 10 * hi + 1)%Z.
  { rewrite Zlt_Qlt. rewrite inject_Z_plus, inject_Z_mult. exact H2. }
  lia.
Qed.

(** A float with one decimal is on the same side of an integer as its
    tenths are of ten times that integer: the cases are evaluated. *)
Lemma dec1_between (k lo hi : Z) :
  (1 <= lo)%Z -> (hi <= 10)%Z -> (10 * lo <= k <= 10 * hi)%Z ->
  inject_Z lo <= dec1 k /\ dec1 k <= inject_Z hi.
Proof.
  intros Hlo Hhi Hk.
  assert (Hall :
    forallb (fun i =>
      forallb (fun j =>
        let k := (10 + Z.of_nat i)%Z in
        let r := (1 + Z.of_nat j)%Z in
        (negb (10 * r <=? k)%Z || Qle_bool (inject_Z r) (dec1 k)) &&
        (negb (k <=? 10 * r)%Z || Qle_bool (dec1 k) (inject_Z r)))
        (seq 0 10))
      (seq 0 91) = true) by (vm_compute; reflexivity).
  rewrite forallb_forall in Hall.
  assert (Hin : In (Z.to_nat (k - 10)) (seq 0 91)) by (apply in_seq; lia).
  specialize (Hall _ Hin). rewrite forallb_forall in Hall.
  replace (10 + Z.of_nat (Z.to_nat (k - 10)))%Z with k in Hall by lia.
  split.
  - assert (Hj : In (Z.to_nat (lo - 1)) (seq 0 10)) by (apply in_seq; lia).
    specialize (Hall _ Hj). cbv zeta in Hall.
    replace (1 + Z.of_nat (Z.to_nat (lo - 1)))%Z with lo in Hall by lia.
    apply andb_prop in Hall as [H1 _].
    destruct (Z.leb_spec (10 * lo) k); [| lia].
    simpl in H1. by apply Qle_bool_iff.
  - assert (Hj : In (Z.to_nat (hi - 1)) (seq 0 10)) by (apply in_seq; lia).
    specialize (Hall _ Hj). cbv zeta in Hall.
    replace (1 + Z.of_nat (Z.to_nat (hi - 1)))%Z with hi in Hall by lia.
    apply andb_prop in Hall as [_ H2].
    destruct (Z.leb_spec k (10 * hi)); [| lia].
    simpl in H2. by apply Qle_bool_iff.
Qed.

(** The sum of integers that all lie between [lo] and [hi]. *)
Lemma total_between (ks : list Z) (lo hi : Z) :
  Forall (fun k => (lo <= k <= hi)%Z) ks ->
  (lo * len ks <= total ks <= hi * len ks)%Z.
Proof.
  induction 1 as [| k ks Hk _ IH].
  - unfold len. simpl. lia.
  - rewrite len_cons. simpl total. lia.
Qed.

(** An integer within half a unit of a mean of integers lies between the
    smallest and the largest of them. *)
Lemma half_unit_between (n k s lo hi : Z) :
  (0 < n)%Z -> (lo * n <= s <= hi * n)%Z ->
  (2 * Z.abs (n * k - s) <= n)%Z -> (lo <= k <= hi)%Z.
Proof. intros Hn Hs H. nia. Qed.

End RoundingExact.

(** ** Attachee: what the calls keep *)

Section AttacheeHistory.

Import Binary64.

Lemma set_tasks_id (a : Attachee) : set_tasks a (tasks a) = a.
Proof. by destruct a. Qed.

Lemma set_score_id (a : Attachee) : set_score a (score a) = a.
Proof. by destruct a. Qed.

Lemma mark_completed_id (t : Task) : completed t = true -> mark_completed t = t.
Proof. destruct t as [d c dl]. simpl. by intros ->. Qed.

(** The three ways a public call can leave the task list. *)
Lemma run_attachee_tasks (c : AttacheeCall) (a : Attachee) :
  tasks (state (run_attachee c a)) = tasks a \/
  (exists t, completed t = false /\
             tasks (state (run_attachee c a)) = tasks a ++ [t]) \/
  (exists i t, tasks a !! i = Some t /\
               tasks (state (run_attachee c a))
               = <[i := mark_completed t]> (tasks a)).
Proof.
  destruct c as [d dl | g txt r | i |]; cbn [run_attachee].
  - right; left. rewrite assign_task_run.
    eexists. split; [| reflexivity]. reflexivity.
  - left. destruct (decide (1 <= r <= 10)%Z) as [Hr | Hr].
    + destruct (datetime g) as [today |] eqn:Hg.
      * by rewrite (add_feedback_valid_run g today txt r a Hr Hg).
      * by rewrite add_feedback_unbound_run.
    + by rewrite add_feedback_invalid_run by lia.
  - destruct (decide (0 <= i < len (tasks a))%Z) as [Hi | Hi].
    + right; right.
      destruct (complete_task_valid_run i a Hi) as (t & Ht & ->).
      by exists (Z.to_nat i), t.
    + left. by rewrite complete_task_invalid_run by lia.
  - left. destruct (get_performance_report_pure a) as (rep & Hrep & _).
    unfold bind. by rewrite Hrep.
Qed.

Lemma task_kept_refl (t : Task) : task_kept t t.
Proof. by repeat split. Qed.

Lemma task_kept_trans (t t1 t2 : Task) :
  task_kept t t1 -> task_kept t1 t2 -> task_kept t t2.
Proof.
  intros (Hd & Hl & Hc) (Hd1 & Hl1 & Hc1).
  split; [congruence |]. split; [congruence | auto].
Qed.

Lemma run_attachee_task_kept (c : AttacheeCall) (a : Attachee) j t :
  tasks a !! j = Some t ->
  exists t1, tasks (state (run_attachee c a)) !! j = Some t1 /\ task_kept t t1.
Proof.
  intros Hj.
  destruct (run_attachee_tasks c a) as [-> | [(t0 & _ & ->) | (i & ti & Hi & ->)]].
  - exists t. split; [done | apply task_kept_refl].
  - exists t. split; [| apply task_kept_refl].
    by apply lookup_app_l_Some.
  - destruct (decide (i = j)) as [-> | Hne].
    + exists (mark_completed t). split.
      * rewrite list_lookup_insert_eq; [congruence |].
        by eapply lookup_lt_Some.
      * by repeat split.
    + exists t. split; [by rewrite list_lookup_insert_ne | apply task_kept_refl].
Qed.

Lemma run_attachee_feedback_prefix (c : AttacheeCall) (a : Attachee) :
  feedback a `prefix_of` feedback (state (run_attachee c a)).
Proof.
  destruct (run_attachee_cases c a) as [-> | [(ts & ->) | (fb & _ & ->)]];
    cbn [feedback set_tasks set_score set_feedback]; try done.
  by apply prefix_app_r.
Qed.

Lemma run_attachee_name (c : AttacheeCall) (a : Attachee) :
  name (state (run_attachee c a)) = name a.
Proof.
  destruct (run_attachee_cases c a) as [-> | [(ts & ->) | (fb & _ & ->)]];
    reflexivity.
Qed.

End AttacheeHistory.

(** X1.  Through any sequence of public calls on an attachee, a task stays
    at its position with its description and deadline, and a completed
    task stays completed: tasks are never removed, reordered, edited or
    reopened. *)
Theorem tasks_never_lost (cs : list AttacheeCall) (a : Attachee)
    (j : nat) (t : Task) :
  tasks a !! j = Some t ->
  exists t1,
    tasks (run_attachee_calls cs a) !! j = Some t1 /\ task_kept t t1.
Proof.
  revert a t. induction cs as [| c cs IH]; intros a t Hj.
  - exists t. split; [done | apply task_kept_refl].
  - destruct (run_attachee_task_kept c a j t Hj) as (t1 & H1 & Hk1).
    destruct (IH _ t1 H1) as (t2 & H2 & Hk2).
    exists t2. split; [exact H2 | by eapply task_kept_trans].
Qed.

Lemma tasks_never_lost_witness :
  tasks alice_half_done !! 0 =
    Some {| description := "Fix bug"; completed := true; deadline := None |} /\
  exists t1,
    tasks (run_attachee_calls
             [CallAssignTask "Deploy" None; CallCompleteTask 1;
              CallCompleteTask 0]
             alice_half_done) !! 0 = Some t1 /\
    completed t1 = true.
Proof.
  assert (H0 : tasks alice_half_done !! 0 =
    Some {| description := "Fix bug"; completed := true; deadline := None |})
    by (vm_compute; reflexivity).
  split; [exact H0 |].
  destruct (tasks_never_lost
              [CallAssignTask "Deploy" None; CallCompleteTask 1;
               CallCompleteTask 0] alice_half_done 0 _ H0)
    as (t1 & H1 & _ & _ & Hc).
  exists t1. split; [exact H1 | by apply Hc].
Defined.

(** X2.  Through any sequence of public calls an attachee keeps its name
    and division, and its feedback list only grows at the end: the list
    before is a prefix of the list after, so a stored record is never
    edited or removed. *)
Theorem feedback_append_only (cs : list AttacheeCall) (a : Attachee) :
  name (run_attachee_calls cs a) = name a /\
  division (run_attachee_calls cs a) = division a /\
  feedback a `prefix_of` feedback (run_attachee_calls cs a).
Proof.
  revert a. induction cs as [| c cs IH]; intros a; [done |].
  destruct (IH (state (run_attachee c a))) as (Hn & Hd & Hf).
  change (run_attachee_calls (c :: cs) a)
    with (run_attachee_calls cs (state (run_attachee c a))).
  split; [| split].
  - by rewrite Hn, run_attachee_name.
  - by rewrite Hd, run_attachee_division.
  - etrans; [apply run_attachee_feedback_prefix | exact Hf].
Qed.

(** X3.  [complete_task] is idempotent: calling it twice with the same
    index leaves the attachee as one call does, whether the index is
    valid or not. *)
Theorem complete_task_idempotent (i : Z) (a : Attachee) :
  state (complete_task i (state (complete_task i a)))
  = state (complete_task i a).
Proof.
  destruct (decide (0 <= i < len (tasks a))%Z) as [Hi | Hi].
  - destruct (complete_task_valid_run i a Hi) as (t & Ht & Hrun).
    rewrite Hrun. unfold state at 2 3. cbn [fst snd].
    assert (Hlt : Z.to_nat i < length (tasks a)) by (unfold len in Hi; lia).
    assert (Hi1 : (0 <= i <
              len (tasks (set_tasks a (<[Z.to_nat i := mark_completed t]> (tasks a)))))%Z).
    { cbn [tasks set_tasks]. unfold len in *. by rewrite length_insert. }
    destruct (complete_task_valid_run i _ Hi1) as (t1 & Ht1 & ->).
    unfold state. cbn [fst snd tasks set_tasks] in *.
    rewrite list_lookup_insert_eq in Ht1 by done.
    injection Ht1 as <-.
    rewrite list_insert_insert_eq. reflexivity.
  - rewrite (complete_task_invalid_run i a) by lia.
    unfold state at 2 3. cbn [fst snd].
    by rewrite (complete_task_invalid_run i a) by lia.
Qed.

(** X4.  A task that was just assigned sits at the old length of the
    list: [assign_task] followed by [complete_task] at that index returns
    normally and gives the old tasks followed by the new task, completed,
    with its description and deadline. *)
Theorem assign_then_complete (d : string) (dl : option string) (a : Attachee) :
  let a1 := state (assign_task d dl a) in
  result (complete_task (len (tasks a)) a1) = Return tt /\
  tasks (state (complete_task (len (tasks a)) a1))
  = tasks a ++ [{| description := d; completed := true; deadline := dl |}] /\
  output (complete_task (len (tasks a)) a1) = [TaskComplete d].
Proof.
  intros a1.
  set (t := {| description := d; completed := false; deadline := dl |}).
  assert (Ha1 : a1 = set_tasks a (tasks a ++ [t])) by reflexivity.
  assert (Hi : (0 <= len (tasks a) < len (tasks a1))%Z).
  { rewrite Ha1. cbn [tasks set_tasks]. rewrite len_app.
    pose proof (len_nonneg (tasks a)). change (len [t]) with 1%Z. lia. }
  destruct (complete_task_valid_run _ a1 Hi) as (t1 & Ht1 & Hrun).
  rewrite Hrun. unfold result, state, output. cbn [fst snd tasks set_tasks].
  assert (Hn : Z.to_nat (len (tasks a)) = length (tasks a))
    by (unfold len; lia).
  rewrite Hn in *. rewrite Ha1 in *. cbn [tasks set_tasks] in *.
  rewrite lookup_app_r in Ht1 by lia.
  rewrite Nat.sub_diag in Ht1. injection Ht1 as <-.
  split; [done |]. split; [| done].
  replace (length (tasks a)) with (length (tasks a) + 0) at 1 by lia.
  rewrite insert_app_r. reflexivity.
Qed.

(** ** Attachee: the score *)

Section AttacheeScore.

Import Binary64.

Lemma score_of_nonempty (fs : list Feedback) :
  fs <> [] ->
  score_of fs =
    PFloat (round1 (rn64 (inject_Z (rating_total fs) / inject_Z (len fs)))).
Proof. by destruct fs. Qed.

(** The score is the one [_calculate_score] computes from the feedback. *)
Lemma run_attachee_synced (c : AttacheeCall) (a : Attachee) :
  score a = score_of (feedback a) ->
  score (state (run_attachee c a))
  = score_of (feedback (state (run_attachee c a))).
Proof.
  intros Hs.
  destruct (run_attachee_cases c a) as [-> | [(ts & ->) | (fb & _ & ->)]];
    try done.
  cbn [score feedback set_score set_feedback].
  rewrite score_of_nonempty; [done |]. by destruct (feedback a).
Qed.

Lemma reachable_synced (a : Attachee) :
  attachee_reachable a -> score a = score_of (feedback a).
Proof.
  induction 1 as [n d | a c _ IH]; [done | by apply run_attachee_synced].
Qed.

Lemma calculate_score_score_of (a : Attachee) :
  _calculate_score a = (Return tt, set_score a (score_of (feedback a)), []).
Proof.
  destruct (feedback a) as [| f fs] eqn:Hf.
  - by rewrite calculate_score_empty.
  - rewrite calculate_score_run by (by rewrite Hf). by rewrite Hf.
Qed.

Lemma rating_total_total (fs : list Feedback) :
  rating_total fs = total (rating <$> fs).
Proof.
  induction fs as [| f fs IH]; [done |].
  rewrite rating_total_cons, fmap_cons, IH. reflexivity.
Qed.

Lemma total_permutation (xs ys : list Z) : xs ≡ₚ ys -> total xs = total ys.
Proof.
  induction 1 as [| x xs ys _ IH | x y xs | xs ys zs _ IH1 _ IH2];
    simpl; lia.
Qed.

(** The score depends on the feedback through the ratings only, and not
    on their order. *)
Lemma score_of_permutation (fs1 fs2 : list Feedback) :
  rating <$> fs1 ≡ₚ rating <$> fs2 -> score_of fs1 = score_of fs2.
Proof.
  intros Hp.
  assert (Ht : rating_total fs1 = rating_total fs2).
  { rewrite !rating_total_total. by apply total_permutation. }
  assert (Hl : len fs1 = len fs2).
  { unfold len. apply Permutation_length in Hp.
    rewrite !length_fmap in Hp. by rewrite Hp. }
  destruct fs1 as [| f1 fs1], fs2 as [| f2 fs2]; try done.
  unfold score_of. by rewrite Ht, Hl.
Qed.

(** The ratings that [add_feedback] accepts. *)
Lemma valid_rating_dec (r : Z) : {(1 <= r <= 10)%Z} + {(r < 1 \/ 10 < r)%Z}.
Proof. destruct (decide (1 <= r <= 10)%Z); [by left | right; lia]. Qed.

(** A sequence of [add_feedback] calls with [datetime] bound: the accepted
    ratings are appended in order, and the score follows the feedback. *)
Lemma feedback_calls_run today (es : list (string * Z)) (a : Attachee) :
  score a = score_of (feedback a) ->
  let a1 := run_attachee_calls
              (feedback_calls {| datetime := Some today |} es) a in
  rating <$> feedback a1
  = (rating <$> feedback a)
      ++ filter (fun r => (1 <= r <= 10)%Z) (snd <$> es) /\
  score a1 = score_of (feedback a1) /\
  tasks a1 = tasks a.
Proof.
  revert a. induction es as [| [txt r] es IH]; intros a Hs a1.
  - subst a1. cbn. by rewrite app_nil_r.
  - subst a1.
    change (run_attachee_calls
              (feedback_calls {| datetime := Some today |} ((txt, r) :: es)) a)
      with (run_attachee_calls
              (feedback_calls {| datetime := Some today |} es)
              (state (add_feedback {| datetime := Some today |} txt r a))).
    rewrite fmap_cons. cbn [snd].
    destruct (valid_rating_dec r) as [Hr | Hr].
    + rewrite (add_feedback_valid_run {| datetime := Some today |} today txt r a
                 Hr eq_refl).
      unfold state. cbn [fst snd]. fold (@state Attachee unit).
      set (a2 := set_score _ _).
      destruct (IH a2) as (Hf & Hsc & Ht).
      { unfold a2. cbn [score feedback set_score set_feedback].
        rewrite score_of_nonempty; [done |]. by destruct (feedback a). }
      split; [| split; [exact Hsc | by rewrite Ht]].
      rewrite Hf. unfold a2. cbn [feedback set_score set_feedback].
      rewrite fmap_app, filter_cons_True by done.
      cbn [fmap list_fmap rating]. by rewrite <- app_assoc.
    + rewrite (add_feedback_invalid_run {| datetime := Some today |} txt r a Hr).
      unfold state. cbn [fst snd]. fold (@state Attachee unit).
      destruct (IH a Hs) as (Hf & Hsc & Ht).
      split; [| split; [exact Hsc | exact Ht]].
      rewrite Hf. by rewrite filter_cons_False by lia.
Qed.

End AttacheeScore.

(** X5.  In every reachable state of an attachee the stored score is the
    one that the feedback list gives: recalculating the score changes
    nothing, prints nothing and raises nothing. *)
Theorem score_in_sync (a : Attachee) :
  attachee_reachable a -> _calculate_score a = (Return tt, a, []).
Proof.
  intros Hr. rewrite calculate_score_score_of.
  by rewrite <- (reachable_synced a Hr), set_score_id.
Qed.

Lemma score_in_sync_witness :
  attachee_reachable alice_end_to_end /\
  _calculate_score alice_end_to_end = (Return tt, alice_end_to_end, []).
Proof.
  assert (Hr : attachee_reachable alice_end_to_end) by (repeat constructor).
  split; [exact Hr | exact (score_in_sync alice_end_to_end Hr)].
Defined.

(** X6.  With [datetime] bound, the score after a series of
    [add_feedback] calls does not depend on the order of the ratings:
    two series whose ratings are a permutation of each other, given to
    the same reachable attachee, leave the same score. *)
Theorem score_order_independent today (es1 es2 : list (string * Z))
    (a : Attachee) :
  attachee_reachable a ->
  snd <$> es1 ≡ₚ snd <$> es2 ->
  score (run_attachee_calls
           (feedback_calls {| datetime := Some today |} es1) a)
  = score (run_attachee_calls
             (feedback_calls {| datetime := Some today |} es2) a).
Proof.
  intros Hr Hp.
  pose proof (reachable_synced a Hr) as Hs.
  destruct (feedback_calls_run today es1 a Hs) as (Hf1 & Hs1 & _).
  destruct (feedback_calls_run today es2 a Hs) as (Hf2 & Hs2 & _).
  rewrite Hs1, Hs2. apply score_of_permutation.
  rewrite Hf1, Hf2. apply Permutation_app; [done |].
  by apply filter_Permutation.
Qed.

Lemma score_order_independent_witness :
  attachee_reachable alice /\
  (snd <$> [("Solid", 9%Z); ("Late", 7%Z); ("Fine", 8%Z)])
    ≡ₚ (snd <$> [("Fine", 8%Z); ("Solid", 9%Z); ("Late", 7%Z)]) /\
  score (run_attachee_calls
           (feedback_calls script_globals
              [("Solid", 9%Z); ("Late", 7%Z); ("Fine", 8%Z)]) alice)
  = score (run_attachee_calls
             (feedback_calls script_globals
                [("Fine", 8%Z); ("Solid", 9%Z); ("Late", 7%Z)]) alice).
Proof.
  assert (Hr : attachee_reachable alice) by constructor.
  assert (Hp : (snd <$> [("Solid", 9%Z); ("Late", 7%Z); ("Fine", 8%Z)])
                 ≡ₚ (snd <$> [("Fine", 8%Z); ("Solid", 9%Z); ("Late", 7%Z)])).
  { cbn. etrans; [apply perm_skip, perm_swap |]. apply perm_swap. }
  split; [exact Hr |]. split; [exact Hp |].
  exact (score_order_independent "2023-11-01" _ _ alice Hr Hp).
Defined.

Section AttacheeScoreRange.

Import Binary64.

Lemma rating_total_between (fs : list Feedback) (lo hi : Z) :
  Forall (fun fb => (lo <= rating fb <= hi)%Z) fs ->
  (lo * len fs <= rating_total fs <= hi * len fs)%Z.
Proof.
  induction 1 as [| fb fs Hfb _ IH].
  - unfold len, rating_total. simpl. lia.
  - rewrite rating_total_cons, len_cons. lia.
Qed.

Lemma attachee_reachable_ok (a : Attachee) :
  attachee_reachable a -> ratings_ok a /\ score_ok a.
Proof.
  induction 1 as [n d | a c _ [Hr Hs]].
  - split; [constructor | done].
  - split; [by apply run_attachee_ratings_ok | by apply run_attachee_score_ok].
Qed.

Lemma len_pos {A} (l : list A) : l <> [] -> (0 < len l)%Z.
Proof. destruct l; [done |]. intros _. rewrite len_cons. pose proof (len_nonneg l). lia. Qed.

End AttacheeScoreRange.

(** X7.  In a reachable state with feedback, the score lies between the
    lowest and the highest stored rating: if every rating is between [lo]
    and [hi] then so is the score, whatever the number of ratings.  In
    particular equal ratings [r] give exactly the score [r]. *)
Theorem score_between_ratings (a : Attachee) (lo hi : Z) :
  attachee_reachable a -> feedback a <> [] ->
  (1 <= lo)%Z -> (hi <= 10)%Z ->
  Forall (fun fb => (lo <= rating fb <= hi)%Z) (feedback a) ->
  (inject_Z lo <= PyNum.value (score a) /\
   PyNum.value (score a) <= inject_Z hi)%Q.
Proof.
  intros Hr Hne Hlo Hhi Hall.
  rewrite (reachable_synced a Hr), (score_of_nonempty _ Hne).
  cbn [PyNum.value]. unfold Binary64.round1.
  pose proof (rating_total_between _ lo hi Hall) as Hb.
  pose proof (len_pos _ Hne) as Hn.
  apply dec1_between; [done | done |].
  apply mean_round1_between; done.
Qed.

Lemma score_between_ratings_witness :
  attachee_reachable alice_rated /\ feedback alice_rated <> [] /\
  (1 <= 7)%Z /\ (9 <= 10)%Z /\
  Forall (fun fb => (7 <= rating fb <= 9)%Z) (feedback alice_rated) /\
  (inject_Z 7 <= PyNum.value (score alice_rated) /\
   PyNum.value (score alice_rated) <= inject_Z 9)%Q.
Proof.
  assert (Hr : attachee_reachable alice_rated) by (repeat constructor).
  assert (Hne : feedback alice_rated <> []) by (vm_compute; discriminate).
  assert (Hall : Forall (fun fb => (7 <= rating fb <= 9)%Z)
                   (feedback alice_rated)).
  { vm_compute feedback. repeat constructor; cbn; lia. }
  split; [exact Hr |]. split; [exact Hne |].
  split; [lia |]. split; [lia |]. split; [exact Hall |].
  apply (score_between_ratings alice_rated 7 9 Hr Hne); [lia | lia | exact Hall].
Defined.

(** X8.  In a reachable state with at most [2^40] ratings whose exact mean
    has at most one decimal ([10 * total = count * j]), the score is
    exactly that decimal, the float [j/10]: the float arithmetic adds no
    noise. *)
Theorem score_exact_on_decimals (a : Attachee) (j : Z) :
  attachee_reachable a -> feedback a <> [] ->
  (len (feedback a) <= 2 ^ 40)%Z ->
  (10 * rating_total (feedback a) = len (feedback a) * j)%Z ->
  score a = PFloat (Binary64.dec1 j).
Proof.
  intros Hr Hne Hlen Hj.
  rewrite (reachable_synced a Hr), (score_of_nonempty _ Hne).
  unfold Binary64.round1. do 2 f_equal.
  destruct (attachee_reachable_ok a Hr) as [Hok _].
  pose proof (rating_total_bounds _ Hok) as Hb.
  pose proof (len_pos _ Hne) as Hn.
  apply (half_unit_exact (len (feedback a))); [done |].
  rewrite <- Hj. apply mean_round1_near; lia.
Qed.

Lemma score_exact_on_decimals_witness :
  attachee_reachable alice_end_to_end /\ feedback alice_end_to_end <> [] /\
  (len (feedback alice_end_to_end) <= 2 ^ 40)%Z /\
  (10 * rating_total (feedback alice_end_to_end)
   = len (feedback alice_end_to_end) * 95)%Z /\
  score alice_end_to_end = PFloat (Binary64.dec1 95).
Proof.
  assert (Hr : attachee_reachable alice_end_to_end) by (repeat constructor).
  assert (Hne : feedback alice_end_to_end <> []) by (vm_compute; discriminate).
  assert (Hlen : (len (feedback alice_end_to_end) <= 2 ^ 40)%Z)
    by (vm_compute; discriminate).
  assert (Hj : (10 * rating_total (feedback alice_end_to_end)
                = len (feedback alice_end_to_end) * 95)%Z)
    by (vm_compute; reflexivity).
  split; [exact Hr |]. split; [exact Hne |]. split; [exact Hlen |].
  split; [exact Hj |].
  exact (score_exact_on_decimals alice_end_to_end 95 Hr Hne Hlen Hj).
Defined.

(** ** Attachee: the report *)

(** X9.  For an attachee with at most [2^40] tasks whose exact completion
    percentage has at most one decimal ([1000 * completed = total * j]),
    the reported completion rate is exactly the float [j/10]: 100.0 when
    every task is completed, 0.0 when none is, 50.0 for half of them. *)
Theorem completion_rate_exact_on_decimals (a : Attachee) (j : Z) :
  tasks a <> [] -> (len (tasks a) <= 2 ^ 40)%Z ->
  (1000 * count_completed (tasks a) = len (tasks a) * j)%Z ->
  completion_rate <$> result_value (get_performance_report a)
  = Some (PFloat (Binary64.dec1 j)).
Proof.
  intros Hne Hlen Hj.
  rewrite (get_performance_report_run a Hne).
  unfold result_value. cbn [fst snd completion_rate fmap option_fmap option_map].
  unfold Binary64.round1. do 3 f_equal.
  pose proof (count_completed_bounds (tasks a)) as Hc.
  pose proof (len_pos _ Hne) as Hn.
  apply (half_unit_exact (len (tasks a))); [done |].
  rewrite <- Hj.
  apply (rate_round1_near (count_completed (tasks a)) (len (tasks a))); lia.
Qed.

Lemma completion_rate_exact_on_decimals_witness :
  tasks alice_half_done <> [] /\ (len (tasks alice_half_done) <= 2 ^ 40)%Z /\
  (1000 * count_completed (tasks alice_half_done)
   = len (tasks alice_half_done) * 500)%Z /\
  completion_rate <$> result_value (get_performance_report alice_half_done)
  = Some (PFloat (Binary64.dec1 500)).
Proof.
  assert (Hne : tasks alice_half_done <> []) by (vm_compute; discriminate).
  assert (Hlen : (len (tasks alice_half_done) <= 2 ^ 40)%Z)
    by (vm_compute; discriminate).
  assert (Hj : (1000 * count_completed (tasks alice_half_done)
                = len (tasks alice_half_done) * 500)%Z)
    by (vm_compute; reflexivity).
  split; [exact Hne |]. split; [exact Hlen |]. split; [exact Hj |].
  exact (completion_rate_exact_on_decimals alice_half_done 500 Hne Hlen Hj).
Defined.

(** X10.  The report of a reachable attachee is well formed, whatever the
    number of tasks and ratings: the completed tasks are at most the
    total, the completion rate is between 0 and 100 and the average score
    between 0 and 10; building it changes nothing and raises nothing. *)
Theorem report_well_formed (a : Attachee) :
  attachee_reachable a ->
  exists rep,
    get_performance_report a = (Return rep, a, []) /\
    (0 <= completed_tasks rep <= total_tasks rep)%Z /\
    (0 <= feedback_count rep)%Z /\
    (0 <= PyNum.value (completion_rate rep) /\
     PyNum.value (completion_rate rep) <= 100)%Q /\
    (0 <= PyNum.value (average_score rep) /\
     PyNum.value (average_score rep) <= 10)%Q.
Proof.
  intros Hr.
  destruct (attachee_reachable_ok a Hr) as [_ Hs].
  destruct (score_ok_range a Hs) as (Hrange & _).
  pose proof (count_completed_bounds (tasks a)) as Hc.
  destruct (tasks a) as [| t ts] eqn:Ht.
  - eexists. rewrite get_performance_report_empty_run by done.
    split; [reflexivity |].
    cbn [completed_tasks total_tasks feedback_count completion_rate
         average_score PyNum.value].
    split; [lia |]. split; [apply len_nonneg |].
    split; [| exact Hrange]. change (inject_Z 0) with 0%Q. split; lra.
  - assert (Hne : tasks a <> []) by (by rewrite Ht).
    eexists. rewrite (get_performance_report_run a Hne).
    split; [reflexivity |].
    cbn [completed_tasks total_tasks feedback_count completion_rate
         average_score PyNum.value].
    rewrite Ht. split; [exact Hc |]. split; [apply len_nonneg |].
    split; [| exact Hrange].
    apply dec1_percent_range, rate_round1_range; [| exact Hc].
    rewrite <- Ht. by apply len_pos.
Qed.

Lemma report_well_formed_witness :
  attachee_reachable alice_end_to_end /\
  exists rep,
    get_performance_report alice_end_to_end
    = (Return rep, alice_end_to_end, []) /\
    (0 <= completed_tasks rep <= total_tasks rep)%Z.
Proof.
  assert (Hr : attachee_reachable alice_end_to_end) by (repeat constructor).
  split; [exact Hr |].
  destruct (report_well_formed alice_end_to_end Hr) as (rep & Hrep & Hc & _).
  exists rep. split; [exact Hrep | exact Hc].
Defined.

Section CompletedCount.

Lemma count_completed_app (l1 l2 : list Task) :
  count_completed (l1 ++ l2) = (count_completed l1 + count_completed l2)%Z.
Proof. unfold count_completed. by rewrite filter_app, len_app. Qed.

Lemma count_completed_cons (t : Task) (l : list Task) :
  count_completed (t :: l)
  = ((if completed t then 1 else 0) + count_completed l)%Z.
Proof.
  unfold count_completed. destruct (completed t) eqn:Hc.
  - rewrite filter_cons_True by done. cbv iota. by rewrite len_cons.
  - rewrite filter_cons_False by (by rewrite Hc). cbv iota.
    rewrite Z.add_0_l. reflexivity.
Qed.

(** Completing the task at a position adds one to the count when the task
    was open, and nothing when it was completed. *)
Lemma count_completed_insert (l : list Task) (i : nat) (t : Task) :
  l !! i = Some t ->
  count_completed (<[i := mark_completed t]> l)
  = (count_completed l + (if completed t then 0 else 1))%Z.
Proof.
  intros Hi.
  pose proof (take_drop_middle l i t Hi) as Hl.
  assert (Hlen : length (take i l) = i).
  { apply length_take_le. apply lookup_lt_Some in Hi. lia. }
  set (l1 := take i l) in *. set (l2 := drop (S i) l) in *.
  rewrite <- Hl. replace i with (length l1 + 0) by lia.
  rewrite insert_app_r. cbn [insert list_insert].
  rewrite !count_completed_app, !count_completed_cons.
  cbn [completed mark_completed]. destruct (completed t); cbv iota; lia.
Qed.

End CompletedCount.

(** X11.  [complete_task] with a valid index moves the count of completed
    tasks, as [get_performance_report] counts them, up by exactly one when
    the task was open, and leaves the attachee unchanged when the task
    was already completed; the total never changes. *)
Theorem complete_task_count (i : Z) (a : Attachee) (t : Task) :
  (0 <= i)%Z -> tasks a !! Z.to_nat i = Some t ->
  len (tasks (state (complete_task i a))) = len (tasks a) /\
  (completed t = false ->
   count_completed (tasks (state (complete_task i a)))
   = (count_completed (tasks a) + 1)%Z) /\
  (completed t = true -> state (complete_task i a) = a).
Proof.
  intros H0 Ht.
  assert (Hi : (0 <= i < len (tasks a))%Z).
  { apply lookup_lt_Some in Ht. unfold len. lia. }
  destruct (complete_task_valid_run i a Hi) as (t1 & Ht1 & Hrun).
  rewrite Hrun. unfold state. cbn [fst snd tasks set_tasks].
  assert (t1 = t) by congruence. subst t1.
  split; [| split].
  - unfold len. by rewrite length_insert.
  - intros Hc. rewrite (count_completed_insert _ _ t Ht). by rewrite Hc.
  - intros Hc. rewrite (mark_completed_id t Hc).
    rewrite list_insert_id by done. apply set_tasks_id.
Qed.

Lemma complete_task_count_witness :
  (0 <= 1)%Z /\
  tasks alice_half_done !! Z.to_nat 1 =
    Some {| description := "Write tests"; completed := false;
            deadline := None |} /\
  count_completed (tasks (state (complete_task 1 alice_half_done)))
  = (count_completed (tasks alice_half_done) + 1)%Z.
Proof.
  assert (Ht : tasks alice_half_done !! Z.to_nat 1 =
    Some {| description := "Write tests"; completed := false;
            deadline := None |}) by (vm_compute; reflexivity).
  split; [lia |]. split; [exact Ht |].
  destruct (complete_task_count 1 alice_half_done _ ltac:(lia) Ht)
    as (_ & Hopen & _).
  apply Hopen. reflexivity.
Defined.

(** ** DivisionManager: what the calls keep *)

Section ManagerHistory.

Lemma members_kept_refl (m : DivisionManager) : members_kept m m.
Proof. intros d l Hl. by exists l. Qed.

Lemma members_kept_trans (m m1 m2 : DivisionManager) :
  members_kept m m1 -> members_kept m1 m2 -> members_kept m m2.
Proof.
  intros H1 H2 d l Hl.
  destruct (H1 d l Hl) as (l1 & Hl1 & Hp1).
  destruct (H2 d l1 Hl1) as (l2 & Hl2 & Hp2).
  exists l2. split; [done | by etrans].
Qed.

Lemma members_kept_insert (m : DivisionManager) d (l l1 : list Attachee) :
  attachees m !! d = Some l ->
  (name <$> l) `prefix_of` (name <$> l1) ->
  members_kept m {| attachees := <[d := l1]> (attachees m) |}.
Proof.
  intros Hl Hp d0 l0 Hl0. cbn [attachees].
  destruct (decide (d = d0)) as [<- | Hne].
  - exists l1. rewrite lookup_insert_eq. split; [done | congruence].
  - exists l0. by rewrite lookup_insert_ne.
Qed.

Lemma add_attachee_state n d (m : DivisionManager) :
  state (add_attachee n d m) = m \/
  exists l, attachees m !! d = Some l /\
            state (add_attachee n d m)
            = {| attachees := <[d := l ++ [Attachee_init n d]]> (attachees m) |}.
Proof.
  destruct (decide (d ∈ DIVISIONS)) as [Hd | Hd].
  - destruct (attachees m !! d) as [l |] eqn:Hl.
    + right. exists l. by rewrite (add_attachee_valid_run n d m l Hd Hl).
    + left. unfold add_attachee.
      rewrite bool_decide_eq_true_2 by done. cbn [negb].
      unfold bind, at_division. by rewrite Hl.
  - left. by rewrite add_attachee_invalid_run.
Qed.

Lemma get_division_performance_state d (m : DivisionManager) :
  state (get_division_performance d m) = m.
Proof.
  destruct (attachees m !! d) as [l |] eqn:Hl.
  - destruct (get_division_performance_valid_run d m l Hl) as (reps & -> & _).
    done.
  - by rewrite get_division_performance_invalid_run.
Qed.

Lemma run_manager_members_kept (c : ManagerCall) (m : DivisionManager) :
  members_kept m (state (run_manager c m)).
Proof.
  destruct c as [n d | d td | d | d | d i c]; cbn [run_manager].
  - assert (Hs : state ((add_attachee n d;; ret ()) m) = state (add_attachee n d m)).
    { unfold bind, ret, state.
      by destruct (add_attachee n d m) as [[[b | e] s] o]. }
    rewrite Hs.
    destruct (add_attachee_state n d m) as [-> | (l & Hl & ->)].
    + apply members_kept_refl.
    + apply (members_kept_insert m d l); [done |].
      rewrite fmap_app. by apply prefix_app_r.
  - destruct (attachees m !! d) as [l |] eqn:Hl.
    + rewrite (assign_division_task_valid_run d td m l Hl).
      apply (members_kept_insert m d l); [done |].
      rewrite <- list_fmap_compose. done.
    + rewrite assign_division_task_invalid_run by done.
      apply members_kept_refl.
  - assert (Hs : state ((get_division_performance d;; ret ()) m)
                 = state (get_division_performance d m)).
    { unfold bind, ret, state.
      by destruct (get_division_performance d m) as [[[b | e] s] o]. }
    rewrite Hs, get_division_performance_state. apply members_kept_refl.
  - rewrite display_division_summary_state. apply members_kept_refl.
  - destruct (on_attachee_state d i c m) as [-> | (l & a & Hl & Hi & ->)].
    + apply members_kept_refl.
    + apply (members_kept_insert m d l); [done |].
      rewrite list_fmap_insert, run_attachee_name.
      rewrite list_insert_id; [done |].
      by rewrite list_lookup_fmap, Hi.
Qed.

(** The comprehension of [get_division_performance] on two lists put end
    to end. *)
Lemma each_report_app (l1 l2 : list Attachee) (r1 r2 : list Report) :
  each get_performance_report l1 = (Return r1, l1, []) ->
  each get_performance_report l2 = (Return r2, l2, []) ->
  each get_performance_report (l1 ++ l2) = (Return (r1 ++ r2), l1 ++ l2, []).
Proof.
  revert r1. induction l1 as [| a l1 IH]; intros r1 H1 H2.
  - cbn in H1. injection H1 as <-. exact H2.
  - destruct (get_performance_report_pure a) as (rep & Hrep & _).
    destruct (each_report l1) as (reps & He & _).
    cbn [each] in H1. rewrite Hrep, He in H1. injection H1 as <-.
    cbn [app each]. rewrite Hrep, (IH reps He H2). reflexivity.
Qed.

End ManagerHistory.

(** X12.  Through any sequence of public calls on the manager, the
    attachees of every division stay where they are: the names of a
    division's list before are a prefix of its names after, so no
    attachee is removed, renamed, reordered or moved to another place. *)
Theorem members_never_lost (cs : list ManagerCall) (m : DivisionManager)
    (d : string) (l : list Attachee) :
  attachees m !! d = Some l ->
  exists l1,
    attachees (run_calls cs m) !! d = Some l1 /\
    (name <$> l) `prefix_of` (name <$> l1).
Proof.
  revert m l. induction cs as [| c cs IH]; intros m l Hl.
  - by exists l.
  - destruct (run_manager_members_kept c m d l Hl) as (l1 & Hl1 & Hp1).
    destruct (IH _ l1 Hl1) as (l2 & Hl2 & Hp2).
    exists l2. split; [exact Hl2 | by etrans].
Qed.

Lemma members_never_lost_witness :
  exists l,
    attachees hub !! "Engineering" = Some l /\
    exists l1,
      attachees (run_calls [ CallAssignDivisionTask "Engineering" "Review";
                             CallAddAttachee "Carol" "Engineering" ] hub)
        !! "Engineering" = Some l1 /\
      (name <$> l) `prefix_of` (name <$> l1).
Proof.
  destruct (attachees hub !! "Engineering") as [l |] eqn:Hl;
    [| vm_compute in Hl; discriminate].
  exists l. split; [reflexivity |].
  exact (members_never_lost _ hub "Engineering" l Hl).
Defined.

(** X13.  After a successful [add_attachee(name, division)],
    [get_division_performance(division)] returns the reports it returned
    before followed by the report of the new attachee: no tasks, the
    completion rate and the score the int 0, no feedback. *)
Theorem add_then_report n d (m : DivisionManager) (reps : list Report) :
  keys_ok m -> d ∈ DIVISIONS ->
  result (get_division_performance d m) = Return reps ->
  result (get_division_performance d (state (add_attachee n d m)))
  = Return (reps ++ [fresh_report n d]).
Proof.
  intros Hk Hd Hreps.
  destruct (keys_ok_Some m d Hk Hd) as [l Hl].
  destruct (get_division_performance_valid_run d m l Hl) as (reps0 & Hrun & _).
  rewrite Hrun in Hreps. injection Hreps as ->.
  rewrite (add_attachee_valid_run n d m l Hd Hl).
  unfold state at 1. cbn [fst snd].
  set (m1 := {| attachees := _ |}).
  assert (Hl1 : attachees m1 !! d = Some (l ++ [Attachee_init n d])).
  { unfold m1. cbn [attachees]. by rewrite lookup_insert_eq. }
  unfold get_division_performance, bind, get.
  rewrite (not_in_attachees_Some _ _ _ Hl1).
  rewrite (at_division_run _ _ _ _ Hl1).
  destruct (each_report l) as (reps1 & He & _).
  assert (reps1 = reps).
  { unfold get_division_performance, bind, get in Hrun.
    rewrite (not_in_attachees_Some _ _ _ Hl) in Hrun.
    rewrite (at_division_run _ _ _ _ Hl), He in Hrun.
    cbn [fst snd] in Hrun. congruence. }
  subst reps1.
  rewrite (each_report_app l [Attachee_init n d] reps [fresh_report n d] He);
    [done | reflexivity].
Qed.

Lemma add_then_report_witness :
  keys_ok hub /\ ("Engineering" ∈ DIVISIONS) /\
  exists reps,
    result (get_division_performance "Engineering" hub) = Return reps /\
    result (get_division_performance "Engineering"
              (state (add_attachee "Carol" "Engineering" hub)))
    = Return (reps ++ [fresh_report "Carol" "Engineering"]).
Proof.
  assert (Hk : keys_ok hub).
  { apply (reachable_inv in_division); [done | | ].
    - intros d c a Ha. unfold in_division. by rewrite run_attachee_division.
    - apply reachable_run_calls. constructor. }
  assert (Hd : "Engineering" ∈ DIVISIONS) by compute_done.
  split; [exact Hk |]. split; [exact Hd |].
  destruct (result (get_division_performance "Engineering" hub))
    as [reps | e] eqn:Hr; [| vm_compute in Hr; discriminate].
  exists reps. split; [reflexivity |].
  exact (add_then_report "Carol" "Engineering" hub reps Hk Hd Hr).
Defined.

Section DivisionTaskReports.

Lemma report_one_more_task (td : string) (a : Attachee) (r r1 : Report) :
  get_performance_report a = (Return r, a, []) ->
  get_performance_report (set_tasks a (tasks a ++ [division_task td]))
  = (Return r1, set_tasks a (tasks a ++ [division_task td]), []) ->
  one_more_task r r1.
Proof.
  intros Hr Hr1.
  assert (Hne : tasks (set_tasks a (tasks a ++ [division_task td])) <> []).
  { cbn [tasks set_tasks]. by destruct (tasks a). }
  rewrite (get_performance_report_run _ Hne) in Hr1.
  injection Hr1 as <-.
  assert (Hc : count_completed (tasks a ++ [division_task td])
               = count_completed (tasks a)).
  { rewrite count_completed_app, count_completed_cons.
    cbn [completed division_task]. unfold count_completed, len. simpl. lia. }
  assert (Hl : len (tasks a ++ [division_task td]) = (len (tasks a) + 1)%Z).
  { by rewrite len_app. }
  assert (Hr0 : exists rate,
            r = {| report_name := name a; report_division := division a;
                   total_tasks := len (tasks a);
                   completed_tasks := count_completed (tasks a);
                   completion_rate := rate;
                   feedback_count := len (feedback a);
                   average_score := score a |}).
  { destruct (tasks a) as [| t ts] eqn:Ht.
    - rewrite (get_performance_report_empty_run a Ht) in Hr.
      injection Hr as <-. by eexists.
    - assert (Hne0 : tasks a <> []) by (by rewrite Ht).
      rewrite (get_performance_report_run a Hne0) in Hr.
      injection Hr as <-. rewrite Ht. by eexists. }
  destruct Hr0 as [rate ->].
  unfold one_more_task.
  cbn [report_name report_division total_tasks completed_tasks
       feedback_count average_score name division tasks feedback score
       set_tasks].
  rewrite Hc, Hl. repeat split.
Qed.

Lemma each_report_one_more_task (td : string) (l : list Attachee)
    (reps reps1 : list Report) :
  each get_performance_report l = (Return reps, l, []) ->
  each get_performance_report
    ((fun a => set_tasks a (tasks a ++ [division_task td])) <$> l)
  = (Return reps1,
     (fun a => set_tasks a (tasks a ++ [division_task td])) <$> l, []) ->
  Forall2 one_more_task reps reps1.
Proof.
  revert reps reps1. induction l as [| a l IH]; intros reps reps1 H H1.
  - cbn in H, H1. injection H as <-. injection H1 as <-. constructor.
  - rewrite fmap_cons in H1. cbn [each] in H, H1.
    destruct (get_performance_report_pure a) as (r & Hr & _).
    destruct (get_performance_report_pure
                (set_tasks a (tasks a ++ [division_task td])))
      as (r1 & Hr1 & _).
    destruct (each_report l) as (rs & He & _).
    destruct (each_report
                ((fun a => set_tasks a (tasks a ++ [division_task td])) <$> l))
      as (rs1 & He1 & _).
    rewrite Hr, He in H. rewrite Hr1, He1 in H1.
    injection H as <-. injection H1 as <-.
    constructor; [by eapply report_one_more_task | by apply IH].
Qed.

Lemma get_division_performance_result d (m : DivisionManager)
    (l : list Attachee) (reps : list Report) :
  attachees m !! d = Some l ->
  result (get_division_performance d m) = Return reps ->
  each get_performance_report l = (Return reps, l, []).
Proof.
  intros Hl Hres.
  destruct (each_report l) as (reps1 & He & _).
  unfold get_division_performance, bind, get in Hres.
  rewrite (not_in_attachees_Some _ _ _ Hl) in Hres.
  rewrite (at_division_run _ _ _ _ Hl), He in Hres.
  unfold result in Hres. cbn [fst snd] in Hres. congruence.
Qed.

End DivisionTaskReports.

(** X14.  After [assign_division_task] on one of the four divisions, the
    reports of that division are the reports from before, one for one and
    in order, each with one more task in the total and the same name,
    completed count, feedback count and score. *)
Theorem assign_division_task_reports d td (m : DivisionManager)
    (reps reps1 : list Report) :
  keys_ok m -> d ∈ DIVISIONS ->
  result (get_division_performance d m) = Return reps ->
  result (get_division_performance d (state (assign_division_task d td m)))
  = Return reps1 ->
  Forall2 one_more_task reps reps1.
Proof.
  intros Hk Hd Hreps Hreps1.
  destruct (keys_ok_Some m d Hk Hd) as [l Hl].
  rewrite (assign_division_task_valid_run d td m l Hl) in Hreps1.
  unfold state at 1 in Hreps1. cbn [fst snd] in Hreps1.
  set (m1 := {| attachees := _ |}) in Hreps1.
  assert (Hl1 : attachees m1 !! d
          = Some ((fun a => set_tasks a (tasks a ++ [division_task td])) <$> l)).
  { unfold m1. cbn [attachees]. by rewrite lookup_insert_eq. }
  apply (each_report_one_more_task td l).
  - by apply (get_division_performance_result d m).
  - by apply (get_division_performance_result d m1).
Qed.

Lemma assign_division_task_reports_witness :
  keys_ok hub /\ ("Engineering" ∈ DIVISIONS) /\
  exists reps reps1,
    result (get_division_performance "Engineering" hub) = Return reps /\
    result (get_division_performance "Engineering"
              (state (assign_division_task "Engineering" "Review" hub)))
    = Return reps1 /\
    Forall2 one_more_task reps reps1.
Proof.
  assert (Hk : keys_ok hub).
  { apply (reachable_inv in_division); [done | | ].
    - intros d c a Ha. unfold in_division. by rewrite run_attachee_division.
    - apply reachable_run_calls. constructor. }
  assert (Hd : "Engineering" ∈ DIVISIONS) by compute_done.
  split; [exact Hk |]. split; [exact Hd |].
  destruct (result (get_division_performance "Engineering" hub))
    as [reps | e] eqn:Hr; [| vm_compute in Hr; discriminate].
  destruct (result (get_division_performance "Engineering"
              (state (assign_division_task "Engineering" "Review" hub))))
    as [reps1 | e] eqn:Hr1; [| vm_compute in Hr1; discriminate].
  exists reps, reps1. split; [reflexivity |]. split; [reflexivity |].
  exact (assign_division_task_reports "Engineering" "Review" hub reps reps1
           Hk Hd Hr Hr1).
Defined.

(** ** DivisionManager.display_division_summary, continued *)

(** X15.  With a name that is not one of the four divisions,
    [display_division_summary] prints the invalid-division line alone (no
    header, no average), changes nothing and returns normally. *)
Theorem display_division_summary_invalid d (m : DivisionManager) :
  keys_ok m -> d ∉ DIVISIONS ->
  display_division_summary d m = (Return tt, m, [InvalidDivision]).
Proof.
  intros Hk Hd. apply display_division_summary_invalid_run.
  by apply keys_ok_None.
Qed.

Lemma display_division_summary_invalid_witness :
  keys_ok DivisionManager_init /\ ("Marketing" ∉ DIVISIONS) /\
  display_division_summary "Marketing" DivisionManager_init
  = (Return tt, DivisionManager_init, [InvalidDivision]).
Proof.
  assert (Hk : keys_ok DivisionManager_init).
  { apply (manager_init_inv in_division). }
  assert (Hd : "Marketing" ∉ DIVISIONS) by compute_done.
  split; [exact Hk |]. split; [exact Hd |].
  exact (display_division_summary_invalid "Marketing" DivisionManager_init Hk Hd).
Defined.

(** X16.  For a reachable manager and a division of 1 to [2^20]
    attachees, the division average that the summary prints last lies
    between the lowest and the highest score of the division, in tenths:
    if every score is between [lo] and [hi] tenths, so is the average.
    In particular a division whose attachees all have the same score has
    that score as its average.  And when the exact mean of the scores has
    at most one decimal, the average is exactly that decimal. *)
Theorem division_average_between_scores d (m : DivisionManager)
    (l : list Attachee) :
  reachable m -> attachees m !! d = Some l -> l <> [] ->
  (len l <= 2 ^ 20)%Z ->
  exists ks k,
    Forall2 tenths ks (score <$> l) /\
    last (output (display_division_summary d m))
    = Some (DivisionAverage (PFloat (Binary64.dec1 k))) /\
    (forall lo hi,
       Forall (fun x => (lo <= x <= hi)%Z) ks -> (lo <= k <= hi)%Z) /\
    (forall j, total ks = (len l * j)%Z -> k = j).
Proof.
  intros Hreach Hl Hne Hlen.
  pose proof (reachable_ok m Hreach) as [_ Hall].
  destruct (scores_tenths d l (Hall d _ Hl)) as [ks Hks].
  assert (Hlen1 : len (score <$> l) = len l).
  { unfold len. by rewrite length_fmap. }
  assert (Hn : (0 < len (score <$> l) <= 2 ^ 20)%Z).
  { rewrite Hlen1. split; [by apply len_pos | done]. }
  destruct (average_near ks _ Hks Hn) as (q & Hq & Hk & Hnear).
  rewrite Hlen1 in Hq, Hnear.
  destruct (display_division_summary_run d m l (PFloat q) Hl Hne Hq)
    as (reps & _ & Hrun).
  exists ks, (Binary64.rnd_even (10 * q)).
  split; [done |]. split; [| split].
  - rewrite Hrun. unfold output. cbn [snd].
    rewrite app_assoc. apply last_snoc.
  - intros lo hi Hb.
    pose proof (total_between ks lo hi Hb) as Ht.
    assert (Hlk : len ks = len l).
    { unfold len. apply Forall2_length in Hks.
      rewrite length_fmap in Hks. by rewrite Hks. }
    rewrite Hlk in Ht.
    apply (half_unit_between (len l) _ (total ks)); [| done | done].
    rewrite <- Hlen1. lia.
  - intros j Hj. apply (half_unit_exact (len l)); [by apply len_pos |].
    by rewrite <- Hj.
Qed.

Lemma division_average_between_scores_witness :
  exists l,
    reachable hub /\ attachees hub !! "Engineering" = Some l /\ l <> [] /\
    (len l <= 2 ^ 20)%Z /\
    exists ks k,
      Forall2 tenths ks (score <$> l) /\
      last (output (display_division_summary "Engineering" hub))
      = Some (DivisionAverage (PFloat (Binary64.dec1 k))).
Proof.
  assert (Hreach : reachable hub) by (apply reachable_run_calls; constructor).
  destruct (attachees hub !! "Engineering") as [l |] eqn:Hl;
    [| vm_compute in Hl; discriminate].
  assert (Hne : l <> []).
  { vm_compute in Hl. injection Hl as <-. discriminate. }
  assert (Hlen : (len l <= 2 ^ 20)%Z).
  { vm_compute in Hl. injection Hl as <-. vm_compute. discriminate. }
  exists l. split; [exact Hreach |]. split; [reflexivity |].
  split; [exact Hne |]. split; [exact Hlen |].
  destruct (division_average_between_scores "Engineering" hub l
              Hreach Hl Hne Hlen) as (ks & k & Hks & Hlast & _).
  exists ks, k. split; [exact Hks | exact Hlast].
Defined.

(** ** The example usage *)

(** X17.  Run as a script, the example usage of lines 180-213 raises no
    exception, whatever the date, and prints the same lines whatever the
    date: the 15 notifications of the calls, then the four summaries in
    the order of [DIVISIONS], with the division averages 9.0, 0.0, 0.0
    and 0.0. *)
Theorem main_output (today : string) :
  result (main today) = Return tt /\
  output (main today) =
    [ AddedAttachee "Alice Johnson" "Engineering";
      AddedAttachee "Bob Smith" "Engineering";
      AddedAttachee "Carol Williams" "Tech Programs";
      AddedAttachee "David Brown" "Radio Support";
      AddedAttachee "Eve Davis" "Hub Support";
      TaskAssigned "Alice Johnson"
        "Review codebase for optimization opportunities";
      TaskAssigned "Bob Smith"
        "Review codebase for optimization opportunities";
      TaskAssigned "Carol Williams"
        "Prepare workshop materials for next week";
      TaskAssigned "Alice Johnson" "Fix login page UI bugs";
      TaskAssigned "Bob Smith" "Implement new API endpoint";
      FeedbackRecorded "Alice Johnson"; FeedbackRecorded "Alice Johnson";
      FeedbackRecorded "Bob Smith";
      TaskComplete "Review codebase for optimization opportunities";
      TaskComplete "Implement new API endpoint";
      Rule; SummaryTitle "Engineering"; Rule;
      AttacheeLine "Alice Johnson"; TasksLine 1 2 (PFloat 50);
      FeedbackLine 2; ScoreLine (PFloat 8);
      AttacheeLine "Bob Smith"; TasksLine 1 2 (PFloat 50);
      FeedbackLine 1; ScoreLine (PFloat 10);
      DivisionAverage (PFloat 9);
      Rule; SummaryTitle "Tech Programs"; Rule;
      AttacheeLine "Carol Williams"; TasksLine 0 1 (PFloat 0);
      FeedbackLine 0; ScoreLine (PInt 0);
      DivisionAverage (PFloat 0);
      Rule; SummaryTitle "Radio Support"; Rule;
      AttacheeLine "David Brown"; TasksLine 0 0 (PInt 0);
      FeedbackLine 0; ScoreLine (PInt 0);
      DivisionAverage (PFloat 0);
      Rule; SummaryTitle "Hub Support"; Rule;
      AttacheeLine "Eve Davis"; TasksLine 0 0 (PInt 0);
      FeedbackLine 0; ScoreLine (PInt 0);
      DivisionAverage (PFloat 0) ].
Proof. vm_compute. split; reflexivity. Qed.
